(** * Task service (server.py): a shallow embedding and its properties

    The service is a set of request handlers over one MongoDB collection
    of task documents.  The collection is modelled as the list of its
    documents in natural (insertion) order; the driver calls the handlers
    make ([find_one], [find], [update_one], [delete_one], [insert_one],
    [count_documents]) are functions over that list; each handler is a
    computation in a small state-and-exception monad over the collection.
    Values the handlers obtain from their environment (the clock read by
    [datetime.utcnow], the identifier drawn by [uuid.uuid4], whether the
    store took an insert) are explicit arguments.  A timestamp is an
    integer number of microseconds, the resolution of a Python
    [datetime]; the store keeps dates in whole milliseconds, so every
    date the driver sends (in a document, a [$set] or a query) is cut
    down to the millisecond ([bson_date]). *)

From Stdlib Require Import ZArith String.
From stdpp Require Import base decidable option list strings numbers sorting.

Local Open Scope string_scope.
Local Open Scope Z_scope.
Local Open Scope list_scope.

(** ** Enumerations (server.py, lines 31-39) *)

Inductive TaskStatus := TODO | IN_PROGRESS | DONE.
Inductive TaskPriority := HIGH | MEDIUM | LOW.

(** Both enumerations derive from [str]: a member is its string value. *)
Definition TaskStatus_value (s : TaskStatus) : string :=
  match s with
  | TODO => "To Do"
  | IN_PROGRESS => "In Progress"
  | DONE => "Done"
  end.

Definition TaskPriority_value (p : TaskPriority) : string :=
  match p with
  | HIGH => "High"
  | MEDIUM => "Medium"
  | LOW => "Low"
  end.

Global Instance TaskStatus_eq_dec : EqDecision TaskStatus.
Proof. solve_decision. Defined.
Global Instance TaskPriority_eq_dec : EqDecision TaskPriority.
Proof. solve_decision. Defined.

(** ** Models (server.py, lines 51-84) *)

Definition datetime := Z.

(** The date as the driver encodes it: milliseconds, the microseconds
    below the millisecond dropped. *)
Definition bson_date (d : datetime) : datetime := 1000 * (d / 1000).

Record Subtask := mkSubtask {
  subtask_id : string;
  subtask_text : string;
  subtask_completed : bool
}.

Record Task := mkTask {
  task_id : string;
  task_title : string;
  task_description : option string;
  task_due_date : option datetime;
  task_priority : TaskPriority;
  task_category : option string;
  task_status : TaskStatus;
  task_subtasks : list Subtask;
  task_created_at : datetime;
  task_updated_at : datetime
}.

Record TaskCreate := mkTaskCreate {
  tc_title : string;
  tc_description : option string;
  tc_due_date : option datetime;
  tc_priority : TaskPriority;
  tc_category : option string;
  tc_status : TaskStatus;
  tc_subtasks : list Subtask
}.

(** [TaskUpdate]: every field is [Optional[...] = None]. *)
Record TaskUpdate := mkTaskUpdate {
  tu_title : option string;
  tu_description : option string;
  tu_due_date : option datetime;
  tu_priority : option TaskPriority;
  tu_category : option string;
  tu_status : option TaskStatus;
  tu_subtasks : option (list Subtask)
}.

Global Instance Subtask_eq_dec : EqDecision Subtask.
Proof. solve_decision. Defined.
Global Instance Task_eq_dec : EqDecision Task.
Proof. solve_decision. Defined.

(** ** Request bodies, before validation

    A JSON member is absent, present with [null], or present with a
    value.  Validation against a model class fills absent members with
    the class's defaults. *)

Inductive Member (A : Type) := Absent | Null | Value (a : A).
Arguments Absent {A}.
Arguments Null {A}.
Arguments Value {A} a.

(** A member declared [Optional[T] = d]: absent gives the default [d],
    [null] gives [None]. *)
Definition optional_member {A} (d : option A) (m : Member A) : option A :=
  match m with
  | Absent => d
  | Null => None
  | Value a => Some a
  end.

(** A member declared [T = d] (not optional): [null] is rejected. *)
Definition defaulted_member {A} (d : A) (m : Member A) : option A :=
  match m with
  | Absent => Some d
  | Null => None
  | Value a => Some a
  end.

(** A required member ([title: str]). *)
Definition required_member {A} (m : Member A) : option A :=
  match m with
  | Value a => Some a
  | _ => None
  end.

Record TaskCreateBody := mkTaskCreateBody {
  tcb_title : Member string;
  tcb_description : Member string;
  tcb_due_date : Member datetime;
  tcb_priority : Member TaskPriority;
  tcb_category : Member string;
  tcb_status : Member TaskStatus;
  tcb_subtasks : Member (list Subtask)
}.

Record TaskUpdateBody := mkTaskUpdateBody {
  tub_title : Member string;
  tub_description : Member string;
  tub_due_date : Member datetime;
  tub_priority : Member TaskPriority;
  tub_category : Member string;
  tub_status : Member TaskStatus;
  tub_subtasks : Member (list Subtask)
}.

(** Validation of a body against [TaskCreate] (lines 68-75); [None] is
    the framework's 422 response, produced before the handler runs. *)
Definition TaskCreate_validate (b : TaskCreateBody) : option TaskCreate :=
  title ← required_member (tcb_title b);
  priority ← defaulted_member MEDIUM (tcb_priority b);
  status ← defaulted_member TODO (tcb_status b);
  subtasks ← defaulted_member [] (tcb_subtasks b);
  Some {| tc_title := title;
          tc_description := optional_member (Some "") (tcb_description b);
          tc_due_date := optional_member None (tcb_due_date b);
          tc_priority := priority;
          tc_category := optional_member (Some "") (tcb_category b);
          tc_status := status;
          tc_subtasks := subtasks |}.

(** Validation of a body against [TaskUpdate] (lines 77-84). *)
Definition TaskUpdate_validate (b : TaskUpdateBody) : TaskUpdate :=
  {| tu_title := optional_member None (tub_title b);
     tu_description := optional_member None (tub_description b);
     tu_due_date := optional_member None (tub_due_date b);
     tu_priority := optional_member None (tub_priority b);
     tu_category := optional_member None (tub_category b);
     tu_status := optional_member None (tub_status b);
     tu_subtasks := optional_member None (tub_subtasks b) |}.

(** The [Task] built from the input's dict (line 110): the three members
    the input does not carry come from their default factories, called in
    declaration order: [uuid4()], then [utcnow()] for [created_at], then
    [utcnow()] again for [updated_at]. *)
Definition Task_of_TaskCreate (uuid : string) (t_created t_updated : datetime)
    (i : TaskCreate) : Task :=
  {| task_id := uuid;
     task_title := tc_title i;
     task_description := tc_description i;
     task_due_date := tc_due_date i;
     task_priority := tc_priority i;
     task_category := tc_category i;
     task_status := tc_status i;
     task_subtasks := tc_subtasks i;
     task_created_at := t_created;
     task_updated_at := t_updated |}.

(** ** The document store

    Only what the handlers use of the driver is modelled: equality and
    comparison conditions on the members of a task document, the [$set]
    update with the positional operator on [subtasks], and the result
    objects' counters. *)

Module Store.

Abbreviation Collection := (list Task).

(** One entry of a query document. *)
Inductive Cond :=
| IdEq (v : string)               (* "id": v *)
| StatusEq (v : TaskStatus)       (* "status": v *)
| StatusNe (v : TaskStatus)       (* "status": {"$ne": v} *)
| PriorityEq (v : TaskPriority)   (* "priority": v *)
| CategoryEq (v : string)         (* "category": v *)
| DueDateLt (v : datetime)        (* "due_date": {"$lt": v} *)
| SubtaskIdEq (v : string).       (* "subtasks.id": v *)

(** A query document: the conjunction of its entries. *)
Definition Query := list Cond.

Definition holds (c : Cond) (t : Task) : bool :=
  match c with
  | IdEq v => bool_decide (task_id t = v)
  | StatusEq v => bool_decide (task_status t = v)
  | StatusNe v => negb (bool_decide (task_status t = v))
  | PriorityEq v => bool_decide (task_priority t = v)
  | CategoryEq v => bool_decide (task_category t = Some v)
  | DueDateLt v =>
      match task_due_date t with
      | Some d => bool_decide (d < bson_date v)
      | None => false          (* null is never less than a date *)
      end
  | SubtaskIdEq v =>
      existsb (fun s => bool_decide (subtask_id s = v)) (task_subtasks t)
  end.

Definition matches (q : Query) (t : Task) : bool :=
  forallb (fun c => holds c t) q.

(** One entry of a [$set] document. *)
Inductive SetOp :=
| SetTitle (v : string)
| SetDescription (v : string)
| SetDueDate (v : datetime)
| SetPriority (v : TaskPriority)
| SetCategory (v : string)
| SetStatus (v : TaskStatus)
| SetSubtasks (v : list Subtask)
| SetUpdatedAt (v : datetime)
| SetSubtasksPosCompleted (v : bool).   (* "subtasks.$.completed": v *)

Definition set_completed (b : bool) (s : Subtask) : Subtask :=
  {| subtask_id := subtask_id s;
     subtask_text := subtask_text s;
     subtask_completed := b |}.

(** The index [$] stands for: the first element of [subtasks] that
    satisfies the query's condition on the array. *)
Fixpoint positional (q : Query) (t : Task) : option nat :=
  match q with
  | [] => None
  | SubtaskIdEq v :: _ =>
      fst <$> list_find (fun s => subtask_id s = v) (task_subtasks t)
  | _ :: q' => positional q' t
  end.

Definition with_title v t :=
  mkTask (task_id t) v (task_description t) (task_due_date t)
    (task_priority t) (task_category t) (task_status t) (task_subtasks t)
    (task_created_at t) (task_updated_at t).
Definition with_description v t :=
  mkTask (task_id t) (task_title t) v (task_due_date t)
    (task_priority t) (task_category t) (task_status t) (task_subtasks t)
    (task_created_at t) (task_updated_at t).
Definition with_due_date v t :=
  mkTask (task_id t) (task_title t) (task_description t) v
    (task_priority t) (task_category t) (task_status t) (task_subtasks t)
    (task_created_at t) (task_updated_at t).
Definition with_priority v t :=
  mkTask (task_id t) (task_title t) (task_description t) (task_due_date t)
    v (task_category t) (task_status t) (task_subtasks t)
    (task_created_at t) (task_updated_at t).
Definition with_category v t :=
  mkTask (task_id t) (task_title t) (task_description t) (task_due_date t)
    (task_priority t) v (task_status t) (task_subtasks t)
    (task_created_at t) (task_updated_at t).
Definition with_status v t :=
  mkTask (task_id t) (task_title t) (task_description t) (task_due_date t)
    (task_priority t) (task_category t) v (task_subtasks t)
    (task_created_at t) (task_updated_at t).
Definition with_subtasks v t :=
  mkTask (task_id t) (task_title t) (task_description t) (task_due_date t)
    (task_priority t) (task_category t) (task_status t) v
    (task_created_at t) (task_updated_at t).
Definition with_updated_at v t :=
  mkTask (task_id t) (task_title t) (task_description t) (task_due_date t)
    (task_priority t) (task_category t) (task_status t) (task_subtasks t)
    (task_created_at t) v.

(** One [$set] entry applied to a document; [pos] is the resolved [$].
    (The handlers use [$] only together with a condition on the array,
    so a matched document always has a position.) *)
Definition apply_set (pos : option nat) (op : SetOp) (t : Task) : Task :=
  match op with
  | SetTitle v => with_title v t
  | SetDescription v => with_description (Some v) t
  | SetDueDate v => with_due_date (Some (bson_date v)) t
  | SetPriority v => with_priority v t
  | SetCategory v => with_category (Some v) t
  | SetStatus v => with_status v t
  | SetSubtasks v => with_subtasks v t
  | SetUpdatedAt v => with_updated_at (bson_date v) t
  | SetSubtasksPosCompleted v =>
      match pos with
      | Some i => with_subtasks (alter (set_completed v) i (task_subtasks t)) t
      | None => t
      end
  end.

Definition apply_update (q : Query) (ops : list SetOp) (t : Task) : Task :=
  foldl (fun acc op => apply_set (positional q t) op acc) t ops.

Record UpdateResult := mkUpdateResult {
  matched_count : Z;
  modified_count : Z
}.

Record DeleteResult := mkDeleteResult { deleted_count : Z }.

(** [inserted_id]: the [_id] of the inserted document.  The driver
    draws it itself before it sends the document, so the result carries
    one whatever becomes of the write. *)
Record InsertOneResult := mkInsertOneResult { inserted_id : option nat }.

(** [find_one(q)]: the first matching document, or [None]. *)
Definition find_one (q : Query) (db : Collection) : option Task :=
  snd <$> list_find (fun t => matches q t) db.

(** [find(q)], [.sort("created_at", -1)], [.to_list(n)]. *)
Definition find (q : Query) (db : Collection) : list Task :=
  filter (fun t => matches q t) db.

Definition created_at_desc (a b : Task) : Prop :=
  task_created_at b <= task_created_at a.

Global Instance created_at_desc_dec a b : Decision (created_at_desc a b).
Proof. unfold created_at_desc. apply _. Defined.

Definition sort_created_at_desc (l : list Task) : list Task :=
  merge_sort created_at_desc l.

Definition to_list (n : nat) (l : list Task) : list Task := take n l.

Definition count_documents (q : Query) (db : Collection) : Z :=
  Z.of_nat (length (filter (fun t => matches q t) db)).

(** [update_one(q, {"$set": ops})]: the first matching document is
    rewritten in place; it counts as modified when the rewrite changed
    it. *)
Definition update_one (q : Query) (ops : list SetOp) (db : Collection)
    : Collection * UpdateResult :=
  match list_find (fun t => matches q t) db with
  | None => (db, mkUpdateResult 0 0)
  | Some (i, t) =>
      let t' := apply_update q ops t in
      (<[i := t']> db,
       mkUpdateResult 1 (if decide (t' = t) then 0 else 1))
  end.

(** [delete_one(q)]: the first matching document is removed. *)
Definition delete_one (q : Query) (db : Collection)
    : Collection * DeleteResult :=
  match list_find (fun t => matches q t) db with
  | None => (db, mkDeleteResult 0)
  | Some (i, _) => (delete i db, mkDeleteResult 1)
  end.

(** The document as the store keeps it: its dates in milliseconds. *)
Definition bson_task (t : Task) : Task :=
  mkTask (task_id t) (task_title t) (task_description t)
    (bson_date <$> task_due_date t) (task_priority t) (task_category t)
    (task_status t) (task_subtasks t)
    (bson_date (task_created_at t)) (bson_date (task_updated_at t)).

(** [insert_one(doc)]: [ack] is whether the store took the write, in
    which case the encoded document is appended; the result carries an
    [_id] either way. *)
Definition insert_one (ack : bool) (doc : Task) (db : Collection)
    : Collection * InsertOneResult :=
  (if ack then db ++ [bson_task doc] else db,
   mkInsertOneResult (Some (length db))).

End Store.

Import Store.

(** ** Handlers: state over the collection, with [HTTPException] *)

Record HTTPException := mkHTTPException {
  status_code : Z;
  detail : string
}.

Global Instance HTTPException_eq_dec : EqDecision HTTPException.
Proof. solve_decision. Defined.

Definition Handler (A : Type) : Type :=
  Collection -> Collection * (HTTPException + A).

Definition hret {A} (a : A) : Handler A := fun db => (db, inr a).

Definition raise {A} (e : HTTPException) : Handler A := fun db => (db, inl e).

Definition hbind {A B} (m : Handler A) (k : A -> Handler B) : Handler B :=
  fun db =>
    match m db with
    | (db', inr a) => k a db'
    | (db', inl e) => (db', inl e)
    end.

(** A driver call that may write: [await db.tasks.f(...)]. *)
Definition await {A} (f : Collection -> Collection * A) : Handler A :=
  fun db => let (db', a) := f db in (db', inr a).

(** A driver call that only reads. *)
Definition await_read {A} (f : Collection -> A) : Handler A :=
  fun db => (db, inr (f db)).

Notation "x <- m ;; k" := (hbind m (fun x => k))
  (at level 100, m at next level, right associativity).

(** Python truthiness of the values the handlers test. *)
Definition str_truthy (s : string) : bool :=
  match s with
  | EmptyString => false
  | _ => true
  end.

Definition opt_truthy {A} (inner : A -> bool) (o : option A) : bool :=
  match o with
  | Some a => inner a
  | None => false
  end.

(** A found document is a non-empty dict. *)
Definition doc_truthy (o : option Task) : bool := opt_truthy (fun _ => true) o.

(** Building a [Task] from what [find_one] returned; on [None] the
    constructor call raises, which the framework answers with 500. *)
Definition Task_of_doc (o : option Task) : Handler Task :=
  match o with
  | Some t => hret t
  | None => raise (mkHTTPException 500 "Internal Server Error")
  end.

(** *** create_task (lines 106-114) *)
Definition create_task (uuid : string) (t_created t_updated : datetime)
    (ack : bool) (task_input : TaskCreate) : Handler Task :=
  let task_obj := Task_of_TaskCreate uuid t_created t_updated task_input in
  result <- await (insert_one ack task_obj) ;;
  if opt_truthy (fun _ => true) (inserted_id result) then hret task_obj
  else raise (mkHTTPException 500 "Failed to create task").

(** *** get_tasks (lines 116-132) *)
Definition entry_if {A} (truthy : A -> bool) (entry : A -> Cond)
    (o : option A) : Query :=
  match o with
  | Some a => if truthy a then [entry a] else []
  | None => []
  end.

Definition filter_dict (status : option TaskStatus)
    (priority : option TaskPriority) (category : option string) : Query :=
  entry_if (fun s => str_truthy (TaskStatus_value s)) StatusEq status
  ++ entry_if (fun p => str_truthy (TaskPriority_value p)) PriorityEq priority
  ++ entry_if str_truthy CategoryEq category.

Definition get_tasks (status : option TaskStatus)
    (priority : option TaskPriority) (category : option string)
    : Handler (list Task) :=
  tasks <- await_read (fun db =>
    to_list 1000 (sort_created_at_desc
                    (find (filter_dict status priority category) db))) ;;
  hret tasks.

(** *** get_task (lines 134-140) *)
Definition get_task (task_id : string) : Handler Task :=
  task <- await_read (find_one [IdEq task_id]) ;;
  if negb (doc_truthy task) then
    raise (mkHTTPException 404 "Task not found")
  else Task_of_doc task.

(** *** update_task (lines 142-161) *)

(** [task_update.dict().items()], each value wrapped as the [$set] entry
    it would become. *)
Definition TaskUpdate_items (u : TaskUpdate) : list (option SetOp) :=
  [ SetTitle <$> tu_title u;
    SetDescription <$> tu_description u;
    SetDueDate <$> tu_due_date u;
    SetPriority <$> tu_priority u;
    SetCategory <$> tu_category u;
    SetStatus <$> tu_status u;
    SetSubtasks <$> tu_subtasks u ].

(** [{k: v for k, v in ... if v is not None}], then the [updated_at]
    entry. *)
Definition update_dict (u : TaskUpdate) (now : datetime) : list SetOp :=
  omap (fun v => v) (TaskUpdate_items u) ++ [SetUpdatedAt now].

Definition update_task (now : datetime) (task_id : string)
    (task_update : TaskUpdate) : Handler Task :=
  task <- await_read (find_one [IdEq task_id]) ;;
  if negb (doc_truthy task) then
    raise (mkHTTPException 404 "Task not found")
  else
    result <- await (update_one [IdEq task_id] (update_dict task_update now)) ;;
    if modified_count result =? 1 then
      updated_task <- await_read (find_one [IdEq task_id]) ;;
      Task_of_doc updated_task
    else raise (mkHTTPException 500 "Failed to update task").

(** *** delete_task (lines 163-169) *)
Record Message := mkMessage { message : string }.

Definition delete_task (task_id : string) : Handler Message :=
  result <- await (delete_one [IdEq task_id]) ;;
  if deleted_count result =? 1 then
    hret (mkMessage "Task deleted successfully")
  else raise (mkHTTPException 404 "Task not found").

(** *** get_dashboard_stats (lines 171-192) *)
Record DashboardStats := mkDashboardStats {
  total_tasks : Z;
  todo_count : Z;
  in_progress_count : Z;
  done_count : Z;
  high_priority_count : Z;
  overdue_count : Z
}.

Definition get_dashboard_stats (now : datetime) : Handler DashboardStats :=
  total <- await_read (count_documents []) ;;
  todo <- await_read (count_documents [StatusEq TODO]) ;;
  in_progress <- await_read (count_documents [StatusEq IN_PROGRESS]) ;;
  done_ <- await_read (count_documents [StatusEq DONE]) ;;
  high_priority <- await_read (count_documents [PriorityEq HIGH]) ;;
  overdue <- await_read (count_documents [DueDateLt now; StatusNe DONE]) ;;
  hret (mkDashboardStats total todo in_progress done_ high_priority overdue).

(** *** update_subtask (lines 194-211) *)
Definition update_subtask (now : datetime) (task_id subtask_id : string)
    (completed : bool) : Handler Task :=
  task <- await_read (find_one [IdEq task_id]) ;;
  if negb (doc_truthy task) then
    raise (mkHTTPException 404 "Task not found")
  else
    result <- await (update_one [IdEq task_id; SubtaskIdEq subtask_id]
                       [SetSubtasksPosCompleted completed; SetUpdatedAt now]) ;;
    if modified_count result =? 1 then
      updated_task <- await_read (find_one [IdEq task_id]) ;;
      Task_of_doc updated_task
    else raise (mkHTTPException 404 "Subtask not found").

(** * Specification-level definitions and sample data *)

(** The ids of the collection are pairwise distinct (the data model's
    invariant on [id]). *)
Definition unique_ids (db : Collection) : Prop := NoDup (task_id <$> db).

(** The merge rule in the specification's words: a field the partial
    supplies overwrites the stored one, a field it does not supply keeps
    its stored value, and [updated_at] becomes the current time; dates
    are written at the store's resolution. *)
Definition merge_update (u : TaskUpdate) (now : datetime) (t : Task) : Task :=
  {| task_id := task_id t;
     task_title := default (task_title t) (tu_title u);
     task_description :=
       match tu_description u with Some v => Some v | None => task_description t end;
     task_due_date :=
       match tu_due_date u with
       | Some v => Some (bson_date v)
       | None => task_due_date t
       end;
     task_priority := default (task_priority t) (tu_priority u);
     task_category :=
       match tu_category u with Some v => Some v | None => task_category t end;
     task_status := default (task_status t) (tu_status u);
     task_subtasks := default (task_subtasks t) (tu_subtasks u);
     task_created_at := task_created_at t;
     task_updated_at := bson_date now |}.

Definition empty_update : TaskUpdate :=
  mkTaskUpdate None None None None None None None.

(** Sample documents used to run the handlers on concrete inputs. *)
Definition sample_report : Task :=
  mkTask "id-1" "Write report" (Some "") (Some 5000) MEDIUM (Some "work") TODO
    [mkSubtask "s-a" "a" false; mkSubtask "s-b" "b" false] 10000 10000.

Definition sample_call : Task :=
  mkTask "id-2" "Call back" (Some "") None HIGH (Some "") DONE [] 20000 20000.

Definition sample_db : Collection := [sample_report; sample_call].

Definition null_as_absent {A} (m : Member A) : Member A :=
  match m with
  | Null => Absent
  | _ => m
  end.

(** The body with every [null] member left out. *)
Definition nulls_as_absent (b : TaskUpdateBody) : TaskUpdateBody :=
  {| tub_title := null_as_absent (tub_title b);
     tub_description := null_as_absent (tub_description b);
     tub_due_date := null_as_absent (tub_due_date b);
     tub_priority := null_as_absent (tub_priority b);
     tub_category := null_as_absent (tub_category b);
     tub_status := null_as_absent (tub_status b);
     tub_subtasks := null_as_absent (tub_subtasks b) |}.

Definition null_due_date_body : TaskUpdateBody :=
  mkTaskUpdateBody Absent Absent Null Absent Absent (Value DONE) Absent.

(** The filter as the specification words it: every supplied filter is
    an exact match on the stored field. *)
Definition exact_match (status : option TaskStatus)
    (priority : option TaskPriority) (category : option string)
    (t : Task) : Prop :=
  from_option (fun s => task_status t = s) True status
  /\ from_option (fun p => task_priority t = p) True priority
  /\ from_option (fun c => task_category t = Some c) True category.

(** The filter as the handler builds it: a category filter counts only
    when it is not the empty string. *)
Definition applied_match (status : option TaskStatus)
    (priority : option TaskPriority) (category : option string)
    (t : Task) : Prop :=
  from_option (fun s => task_status t = s) True status
  /\ from_option (fun p => task_priority t = p) True priority
  /\ from_option (fun c => c <> "" -> task_category t = Some c) True category.

Global Instance applied_match_dec s p c t : Decision (applied_match s p c t).
Proof. unfold applied_match. destruct s, p, c; simpl; apply _. Defined.

Definition title_only_body : TaskCreateBody :=
  mkTaskCreateBody (Value "Write report") Absent Absent Absent Absent Absent
    Absent.

(** Overdue, in the specification's words: the due date is strictly
    before [now] and the status is not Done. *)
Definition overdue (now : datetime) (t : Task) : Prop :=
  from_option (fun d => d < now) False (task_due_date t)
  /\ task_status t <> DONE.

Global Instance overdue_dec now t : Decision (overdue now t).
Proof. unfold overdue. destruct (task_due_date t); simpl; apply _. Defined.

Definition overdue_tasks (now : datetime) (db : Collection) : Z :=
  Z.of_nat (length (filter (overdue now) db)).

Definition status_update (s : TaskStatus) : TaskUpdate :=
  mkTaskUpdate None None None None None (Some s) None.

Definition late_input : TaskCreate :=
  mkTaskCreate "Pay invoice" (Some "") (Some 3000) MEDIUM (Some "") TODO [].

(** ** The service as a transition system

    A world is the collection together with the last reading of the
    clock.  A request is served with the readings its handler takes
    ([create_task] takes two, the other handlers at most one); the clock
    does not run backwards, so readings are not before the world's clock
    and not before one another. *)

Record World := mkWorld {
  tasks : Collection;
  clock : datetime
}.

Inductive Request :=
| CreateTask (uuid : string) (ack : bool) (task_input : TaskCreate)
| GetTasks (status : option TaskStatus) (priority : option TaskPriority)
    (category : option string)
| GetTask (task_id : string)
| UpdateTask (task_id : string) (task_update : TaskUpdate)
| DeleteTask (task_id : string)
| GetDashboardStats
| UpdateSubtask (task_id subtask_id : string) (completed : bool).

Inductive Response :=
| RespTask (t : Task)
| RespTasks (l : list Task)
| RespMessage (m : Message)
| RespStats (s : DashboardStats)
| RespError (e : HTTPException).

Definition respond {A} (wrap : A -> Response)
    (r : Collection * (HTTPException + A)) : Collection * Response :=
  (r.1, match r.2 with inl e => RespError e | inr a => wrap a end).

Definition serve (req : Request) (t1 t2 : datetime) (db : Collection)
    : Collection * Response :=
  match req with
  | CreateTask uuid ack i => respond RespTask (create_task uuid t1 t2 ack i db)
  | GetTasks s p c => respond RespTasks (get_tasks s p c db)
  | GetTask id => respond RespTask (get_task id db)
  | UpdateTask id u => respond RespTask (update_task t1 id u db)
  | DeleteTask id => respond RespMessage (delete_task id db)
  | GetDashboardStats => respond RespStats (get_dashboard_stats t1 db)
  | UpdateSubtask id sid c => respond RespTask (update_subtask t1 id sid c db)
  end.

Inductive step : World -> Request -> Response -> World -> Prop :=
| step_serve w req t1 t2 :
    clock w <= t1 -> t1 <= t2 ->
    step w req (serve req t1 t2 (tasks w)).2
      (mkWorld (serve req t1 t2 (tasks w)).1 t2).

Inductive reachable : World -> Prop :=
| reachable_init c0 : reachable (mkWorld [] c0)
| reachable_step w req resp w' :
    reachable w -> step w req resp w' -> reachable w'.

(** The tasks a response shows to the caller. *)
Definition response_tasks (r : Response) : list Task :=
  match r with
  | RespTask t => [t]
  | RespTasks l => l
  | _ => []
  end.

(** A stored task in order: created no later than updated, updated no
    later than the clock, and [created_at] a date as the store keeps
    it. *)
Definition timely (clk : datetime) (t : Task) : Prop :=
  task_created_at t <= task_updated_at t /\ task_updated_at t <= clk
  /\ bson_date (task_created_at t) = task_created_at t.

(** Created no later than updated. *)
Definition in_order (t : Task) : Prop :=
  task_created_at t <= task_updated_at t.

(** A reachable world: one task created at readings 40000 and 41000, then
    updated at reading 45000. *)
Definition sample_world : World :=
  mkWorld
    [mkTask "id-9" "Pay invoice" (Some "") (Some 3000) MEDIUM (Some "") DONE []
       40000 45000]
    45000.

(** The task with the subtask at index [j] marked and [updated_at]
    refreshed. *)
Definition mark_subtask (now : datetime) (completed : bool) (j : nat)
    (t : Task) : Task :=
  with_updated_at (bson_date now)
    (with_subtasks (alter (set_completed completed) j (task_subtasks t)) t).

(** ** Status checks (server.py, lines 43-49 and 92-102)

    The status checks live in a collection of their own, modelled as the
    list of its records in insertion order. *)

Record StatusCheck := mkStatusCheck {
  sc_id : string;
  sc_client_name : string;
  sc_timestamp : datetime
}.

Record StatusCheckCreate := mkStatusCheckCreate {
  scc_client_name : string
}.

(** The [StatusCheck] built from the input's dict (line 95): [id] and
    [timestamp] come from their default factories. *)
Definition StatusCheck_of_create (uuid : string) (now : datetime)
    (i : StatusCheckCreate) : StatusCheck :=
  {| sc_id := uuid;
     sc_client_name := scc_client_name i;
     sc_timestamp := now |}.

(** The record as the store keeps it. *)
Definition bson_status_check (c : StatusCheck) : StatusCheck :=
  mkStatusCheck (sc_id c) (sc_client_name c) (bson_date (sc_timestamp c)).

(** [db.status_checks.insert_one(doc)], as [insert_one] on tasks. *)
Definition status_insert_one (ack : bool) (doc : StatusCheck)
    (log : list StatusCheck) : list StatusCheck * InsertOneResult :=
  (if ack then log ++ [bson_status_check doc] else log,
   mkInsertOneResult (Some (length log))).

(** *** create_status_check (lines 92-97): the insert's result is
    discarded. *)
Definition create_status_check (uuid : string) (now : datetime) (ack : bool)
    (input : StatusCheckCreate) (log : list StatusCheck)
    : list StatusCheck * (HTTPException + StatusCheck) :=
  let status_obj := StatusCheck_of_create uuid now input in
  let (log', _) := status_insert_one ack status_obj log in
  (log', inr status_obj).

(** *** get_status_checks (lines 99-102): [find().to_list(1000)]. *)
Definition get_status_checks (log : list StatusCheck)
    : list StatusCheck * (HTTPException + list StatusCheck) :=
  (log, inr (take 1000 log)).

(** A log of [n] records of one client. *)
Definition sample_log (n : nat) : list StatusCheck :=
  replicate n (mkStatusCheck "sc" "probe" 1000).

(** Two tasks under one id (what a colliding [uuid4] would leave). *)
Definition sample_clash : Collection :=
  [sample_report;
   mkTask "id-1" "Shadow" (Some "") None LOW (Some "") TODO [] 12000 12000].

(** Which requests draw an id that no stored task has. *)
Definition fresh_request (req : Request) (db : Collection) : Prop :=
  match req with
  | CreateTask uuid _ _ => forall t, t ∈ db -> task_id t <> uuid
  | _ => True
  end.

(** * Properties *)

(** ** The store *)

Section StoreFacts.

Implicit Types (q : Query) (db : Collection) (t : Task).

Lemma bson_date_le d : bson_date d <= d.
Proof. unfold bson_date. pose proof (Z.mul_div_le d 1000). lia. Qed.

Lemma bson_date_mono d d' : d <= d' -> bson_date d <= bson_date d'.
Proof.
  unfold bson_date. intros H.
  pose proof (Z.div_le_mono d d' 1000). lia.
Qed.

Lemma bson_date_idemp d : bson_date (bson_date d) = bson_date d.
Proof.
  unfold bson_date. rewrite (Z.mul_comm 1000 (d / 1000)), Z.div_mul by lia.
  lia.
Qed.

(** A date the store holds that is not after a reading is not after the
    reading as the store would keep it. *)
Lemma bson_date_le_stored d now :
  bson_date d = d -> d <= now -> d <= bson_date now.
Proof. intros Hd H. rewrite <- Hd. by apply bson_date_mono. Qed.

Lemma bson_task_id t : task_id (bson_task t) = task_id t.
Proof. done. Qed.

Lemma matches_IdEq id t : matches [IdEq id] t <-> task_id t = id.
Proof.
  unfold matches; simpl. rewrite andb_true_r. apply bool_decide_spec.
Qed.

Lemma find_one_Some q db t :
  find_one q db = Some t <->
  exists i, list_find (fun t => matches q t) db = Some (i, t).
Proof.
  unfold find_one. destruct (list_find _ db) as [[i t']|]; simpl; split.
  - intros [= ->]. eauto.
  - intros [j [= _ ->]]. reflexivity.
  - discriminate.
  - intros [j H]. discriminate.
Qed.

Lemma find_one_None q db :
  find_one q db = None <-> list_find (fun t => matches q t) db = None.
Proof.
  unfold find_one. destruct (list_find _ db) as [[i t']|]; simpl; split;
    congruence.
Qed.

Lemma find_one_elem q db t : find_one q db = Some t -> t ∈ db /\ matches q t.
Proof.
  intros [i Hi]%find_one_Some. apply list_find_Some in Hi as (Hi & Hm & _).
  split; [by eapply list_elem_of_lookup_2 | done].
Qed.

Lemma find_one_None_id id db :
  find_one [IdEq id] db = None <-> forall t, t ∈ db -> task_id t <> id.
Proof.
  rewrite find_one_None, list_find_None, Forall_forall.
  split; intros H t Ht; specialize (H t Ht); by rewrite matches_IdEq in *.
Qed.

(** Rewriting the found document by one that still matches leaves it the
    first match. *)
Lemma list_find_insert_same q db i t t' :
  list_find (fun t => matches q t) db = Some (i, t) ->
  matches q t' ->
  list_find (fun t => matches q t) (<[i := t']> db) = Some (i, t').
Proof.
  intros (Hi & Hm & Hleast)%list_find_Some Hm'.
  apply list_find_Some. split_and!.
  - apply list_lookup_insert_eq. by eapply lookup_lt_Some.
  - done.
  - intros j y Hj Hlt. rewrite list_lookup_insert_ne in Hj by lia. eauto.
Qed.

Lemma apply_set_id pos op t : task_id (apply_set pos op t) = task_id t.
Proof. destruct op; simpl; try done. by destruct pos. Qed.

Lemma apply_set_created_at pos op t :
  task_created_at (apply_set pos op t) = task_created_at t.
Proof. destruct op; simpl; try done. by destruct pos. Qed.

Lemma apply_update_id q ops t : task_id (apply_update q ops t) = task_id t.
Proof.
  unfold apply_update. generalize (positional q t) as pos. intros pos.
  generalize t as acc. induction ops as [|op ops IH]; intros acc; simpl.
  - done.
  - rewrite IH. apply apply_set_id.
Qed.

Lemma apply_update_created_at q ops t :
  task_created_at (apply_update q ops t) = task_created_at t.
Proof.
  unfold apply_update. generalize (positional q t) as pos. intros pos.
  generalize t as acc. induction ops as [|op ops IH]; intros acc; simpl.
  - done.
  - rewrite IH. apply apply_set_created_at.
Qed.

Lemma unique_ids_lookup db i j t1 t2 :
  unique_ids db -> db !! i = Some t1 -> db !! j = Some t2 ->
  task_id t1 = task_id t2 -> i = j.
Proof.
  intros Hnd Hi Hj Heq.
  eapply NoDup_lookup; [exact Hnd | |]; rewrite list_lookup_fmap.
  - by rewrite Hi.
  - rewrite Hj. simpl. by rewrite Heq.
Qed.

End StoreFacts.

(** ** update_task *)

Section UpdateTask.

Variables (now : datetime) (id : string) (u : TaskUpdate).

Lemma apply_update_dict t :
  apply_update [IdEq id] (update_dict u now) t = merge_update u now t.
Proof.
  destruct u as [[?|] [?|] [?|] [?|] [?|] [?|] [?|]], t; reflexivity.
Qed.

Lemma update_one_id_found db i t :
  list_find (fun t => matches [IdEq id] t) db = Some (i, t) ->
  update_one [IdEq id] (update_dict u now) db =
    (<[i := merge_update u now t]> db,
     mkUpdateResult 1 (if decide (merge_update u now t = t) then 0 else 1)).
Proof.
  intros H. unfold update_one. rewrite H. by rewrite apply_update_dict.
Qed.

Lemma update_one_id_missing db :
  find_one [IdEq id] db = None ->
  update_one [IdEq id] (update_dict u now) db = (db, mkUpdateResult 0 0).
Proof.
  intros H%find_one_None. unfold update_one. by rewrite H.
Qed.

(** What the handler does when the task is missing. *)
Lemma update_task_missing db :
  find_one [IdEq id] db = None ->
  update_task now id u db = (db, inl (mkHTTPException 404 "Task not found")).
Proof.
  intros H. unfold update_task, hbind, await_read. by rewrite H.
Qed.

(** What the handler does when the task is there. *)
Lemma update_task_found db i t :
  list_find (fun t => matches [IdEq id] t) db = Some (i, t) ->
  update_task now id u db =
    if decide (merge_update u now t = t)
    then (db, inl (mkHTTPException 500 "Failed to update task"))
    else (<[i := merge_update u now t]> db, inr (merge_update u now t)).
Proof.
  intros H.
  assert (Hf : find_one [IdEq id] db = Some t) by (apply find_one_Some; eauto).
  unfold update_task, hbind, await_read, await. rewrite Hf. simpl.
  rewrite (update_one_id_found _ _ _ H). simpl.
  pose proof H as (Hi & Hm & _)%list_find_Some.
  destruct (decide (merge_update u now t = t)) as [Heq|Hne]; simpl.
  - rewrite Heq. by rewrite list_insert_id.
  - assert (Hm' : matches [IdEq id] (merge_update u now t)).
    { apply (proj2 (matches_IdEq id _)). exact (proj1 (matches_IdEq id t) Hm). }
    assert (Hf' : find_one [IdEq id] (<[i := merge_update u now t]> db)
                  = Some (merge_update u now t)).
    { apply find_one_Some. exists i. by apply list_find_insert_same with t. }
    by rewrite Hf'.
Qed.

End UpdateTask.

(** C1: [update_task] answers 404 when no task has the id; when the task
    exists and the targeted write does not report exactly one modified
    document it answers 500; otherwise it succeeds and returns the whole
    task as it is stored after the write. *)
Theorem update_task_outcomes now id u db :
  (find_one [IdEq id] db = None ->
   update_task now id u db = (db, inl (mkHTTPException 404 "Task not found")))
  /\ (forall t, find_one [IdEq id] db = Some t ->
      modified_count (update_one [IdEq id] (update_dict u now) db).2 <> 1 ->
      update_task now id u db =
        (db, inl (mkHTTPException 500 "Failed to update task")))
  /\ (forall t, find_one [IdEq id] db = Some t ->
      modified_count (update_one [IdEq id] (update_dict u now) db).2 = 1 ->
      exists db',
        update_task now id u db = (db', inr (merge_update u now t))
        /\ find_one [IdEq id] db' = Some (merge_update u now t)).
Proof.
  split_and!.
  - apply update_task_missing.
  - intros t [i Hi]%find_one_Some Hcount.
    rewrite (update_one_id_found now id u _ _ _ Hi) in Hcount. simpl in Hcount.
    rewrite (update_task_found now id u _ _ _ Hi).
    destruct (decide (merge_update u now t = t)); [done | by destruct Hcount].
  - intros t [i Hi]%find_one_Some Hcount.
    rewrite (update_one_id_found now id u _ _ _ Hi) in Hcount. simpl in Hcount.
    rewrite (update_task_found now id u _ _ _ Hi).
    destruct (decide (merge_update u now t = t)) as [|Hne]; [done |].
    eexists; split; [reflexivity |].
    apply find_one_Some. exists i.
    apply list_find_insert_same with t; [done |].
    apply list_find_Some in Hi as (_ & Hm & _).
    apply (proj2 (matches_IdEq id _)). exact (proj1 (matches_IdEq id t) Hm).
Qed.

Lemma update_task_outcomes_witness :
  update_task 30000 "nobody" empty_update sample_db
    = (sample_db, inl (mkHTTPException 404 "Task not found"))
  /\ update_task 10000 "id-1" empty_update sample_db
    = (sample_db, inl (mkHTTPException 500 "Failed to update task"))
  /\ exists db',
       update_task 30000 "id-1" empty_update sample_db
         = (db', inr (merge_update empty_update 30000 sample_report))
       /\ find_one [IdEq "id-1"] db'
         = Some (merge_update empty_update 30000 sample_report).
Proof.
  split_and!.
  - apply (update_task_outcomes 30000 "nobody" empty_update sample_db).
    reflexivity.
  - apply (proj1 (proj2 (update_task_outcomes 10000 "id-1" empty_update sample_db))
             sample_report); [reflexivity | vm_compute; discriminate].
  - apply (proj2 (proj2 (update_task_outcomes 30000 "id-1" empty_update sample_db))
             sample_report); reflexivity.
Defined.

(** The write counts as a modification exactly when the merge changes the
    stored task. *)
Lemma update_modified_iff now id u db t :
  find_one [IdEq id] db = Some t ->
  modified_count (update_one [IdEq id] (update_dict u now) db).2 = 1
  <-> merge_update u now t <> t.
Proof.
  intros [i Hi]%find_one_Some.
  rewrite (update_one_id_found now id u _ _ _ Hi). simpl.
  destruct (decide (merge_update u now t = t)); split; done.
Qed.

(** With the empty partial the write is a modification as soon as the
    clock has moved on, by the store's measure, from the stored
    [updated_at]. *)
Lemma update_task_empty_succeeds now id db t :
  find_one [IdEq id] db = Some t -> task_updated_at t <> bson_date now ->
  exists db', update_task now id empty_update db
              = (db', inr (with_updated_at (bson_date now) t)).
Proof.
  intros [i Hi]%find_one_Some Hne.
  rewrite (update_task_found now id empty_update _ _ _ Hi).
  destruct (decide _) as [Heq|_]; [|by eexists].
  destruct Hne. by rewrite <- Heq.
Qed.

(** A successful update is the merge written over the task found. *)
Lemma update_task_success now id u db db' t' :
  update_task now id u db = (db', inr t') ->
  exists i t,
    db !! i = Some t /\ find_one [IdEq id] db = Some t
    /\ t' = merge_update u now t /\ db' = <[i := t']> db.
Proof.
  intros Hrun.
  destruct (find_one [IdEq id] db) as [t|] eqn:Hf.
  2: { rewrite update_task_missing in Hrun by done. discriminate. }
  pose proof Hf as [i Hi]%find_one_Some.
  rewrite (update_task_found now id u _ _ _ Hi) in Hrun.
  destruct (decide (merge_update u now t = t)); [discriminate |].
  injection Hrun as <- <-.
  exists i, t. by apply list_find_Some in Hi as (Hi & _ & _).
Qed.

(** C2: when [update_task] succeeds, the returned task is the stored one
    with every field the partial leaves out unchanged and [updated_at] set
    to the current time, as the store keeps it; no other document of the
    collection changes; with the empty partial only [updated_at]
    changes. *)
Theorem update_task_frame now id u db db' t' :
  update_task now id u db = (db', inr t') ->
  exists i t,
    db !! i = Some t /\ find_one [IdEq id] db = Some t
    /\ db' = <[i := t']> db
    /\ task_updated_at t' = bson_date now
    /\ task_id t' = task_id t
    /\ task_created_at t' = task_created_at t
    /\ (tu_title u = None -> task_title t' = task_title t)
    /\ (tu_description u = None -> task_description t' = task_description t)
    /\ (tu_due_date u = None -> task_due_date t' = task_due_date t)
    /\ (tu_priority u = None -> task_priority t' = task_priority t)
    /\ (tu_category u = None -> task_category t' = task_category t)
    /\ (tu_status u = None -> task_status t' = task_status t)
    /\ (tu_subtasks u = None -> task_subtasks t' = task_subtasks t)
    /\ (u = empty_update -> t' = with_updated_at (bson_date now) t).
Proof.
  intros (i & t & Hi & Hf & -> & ->)%update_task_success.
  exists i, t.
  split_and!; try done;
    try (intros H; simpl; rewrite H; reflexivity).
Qed.

Lemma update_task_frame_witness :
  exists i t,
    sample_db !! i = Some t
    /\ task_title (merge_update empty_update 30000 sample_report) = task_title t
    /\ merge_update empty_update 30000 sample_report = with_updated_at 30000 t.
Proof.
  destruct (update_task_frame 30000 "id-1" empty_update sample_db
              (<[0%nat := merge_update empty_update 30000 sample_report]> sample_db)
              (merge_update empty_update 30000 sample_report) eq_refl)
    as (i & t & Hi & _ & _ & _ & _ & _ & Ht & _ & _ & _ & _ & _ & _ & He).
  exists i, t. split_and!; [exact Hi | exact (Ht eq_refl) | exact (He eq_refl)].
Defined.

(** ** A [null] member of an update body *)

Lemma optional_member_null_as_absent {A} (m : Member A) :
  optional_member None (null_as_absent m) = optional_member None m.
Proof. by destruct m. Qed.

Lemma TaskUpdate_validate_nulls b :
  TaskUpdate_validate (nulls_as_absent b) = TaskUpdate_validate b.
Proof.
  unfold TaskUpdate_validate, nulls_as_absent; simpl.
  by rewrite !optional_member_null_as_absent.
Qed.

(** C9: a member of the update body that is [null] is handled exactly as
    if it were absent: the handler behaves as on the body without it, the
    stored value of that field is what a successful update returns, and an
    optional field that holds a value never comes back empty from
    [update_task]. *)
Theorem update_null_as_absent now id b db :
  update_task now id (TaskUpdate_validate b) db
    = update_task now id (TaskUpdate_validate (nulls_as_absent b)) db
  /\ forall db' t',
      update_task now id (TaskUpdate_validate b) db = (db', inr t') ->
      exists t,
        find_one [IdEq id] db = Some t
        /\ (tub_title b = Null -> task_title t' = task_title t)
        /\ (tub_description b = Null -> task_description t' = task_description t)
        /\ (tub_due_date b = Null -> task_due_date t' = task_due_date t)
        /\ (tub_priority b = Null -> task_priority t' = task_priority t)
        /\ (tub_category b = Null -> task_category t' = task_category t)
        /\ (tub_status b = Null -> task_status t' = task_status t)
        /\ (tub_subtasks b = Null -> task_subtasks t' = task_subtasks t)
        /\ (is_Some (task_description t) -> is_Some (task_description t'))
        /\ (is_Some (task_due_date t) -> is_Some (task_due_date t'))
        /\ (is_Some (task_category t) -> is_Some (task_category t')).
Proof.
  split; [by rewrite TaskUpdate_validate_nulls |].
  intros db' t' (i & t & _ & Hf & -> & _)%update_task_success.
  exists t. split; [done |].
  split_and!; simpl;
    try (intros ->; reflexivity);
    try (intros [v ->]; by destruct (optional_member _ _)).
Qed.

Lemma update_null_as_absent_witness :
  exists t,
    find_one [IdEq "id-1"] sample_db = Some t
    /\ task_due_date
         (merge_update (TaskUpdate_validate null_due_date_body) 30000 sample_report)
       = task_due_date t.
Proof.
  destruct (proj2 (update_null_as_absent 30000 "id-1" null_due_date_body sample_db)
              (<[0%nat := merge_update (TaskUpdate_validate null_due_date_body)
                            30000 sample_report]> sample_db)
              (merge_update (TaskUpdate_validate null_due_date_body) 30000
                 sample_report) eq_refl)
    as (t & Hf & _ & _ & Hd & _).
  exists t. split; [exact Hf | exact (Hd eq_refl)].
Defined.

(** ** get_tasks *)

Global Instance created_at_desc_total : Total created_at_desc.
Proof. intros a b. unfold created_at_desc. lia. Qed.

Global Instance created_at_desc_trans : Transitive created_at_desc.
Proof. intros a b c. unfold created_at_desc. lia. Qed.

Lemma str_truthy_spec s : str_truthy s = true <-> s <> "".
Proof. destruct s; simpl; split; congruence. Qed.

Lemma matches_app q1 q2 t : matches (q1 ++ q2) t = matches q1 t && matches q2 t.
Proof. unfold matches. apply forallb_app. Qed.

Lemma matches_status_entry s t :
  matches (entry_if (fun s => str_truthy (TaskStatus_value s)) StatusEq s) t
  <-> from_option (fun s => task_status t = s) True s.
Proof.
  destruct s as [s|]; simpl; [|done].
  destruct s; simpl; rewrite andb_True, bool_decide_spec;
    (split; [by intros [? _] | by split]).
Qed.

Lemma matches_priority_entry p t :
  matches (entry_if (fun p => str_truthy (TaskPriority_value p)) PriorityEq p) t
  <-> from_option (fun p => task_priority t = p) True p.
Proof.
  destruct p as [p|]; simpl; [|done].
  destruct p; simpl; rewrite andb_True, bool_decide_spec;
    (split; [by intros [? _] | by split]).
Qed.

Lemma matches_category_entry c t :
  matches (entry_if str_truthy CategoryEq c) t
  <-> from_option (fun c => c <> "" -> task_category t = Some c) True c.
Proof.
  destruct c as [c|]; simpl; [|done].
  destruct c as [|a c]; simpl.
  - split; [intros _ H; by destruct H | done].
  - rewrite andb_True, bool_decide_spec.
    split; [by intros [? _] | intros H; by split; [apply H |]].
Qed.

Lemma matches_filter_dict s p c t :
  matches (filter_dict s p c) t <-> applied_match s p c t.
Proof.
  unfold filter_dict, applied_match.
  rewrite !matches_app, !andb_True.
  by rewrite matches_status_entry, matches_priority_entry,
    matches_category_entry.
Qed.

Lemma find_filter_dict s p c db :
  find (filter_dict s p c) db = filter (applied_match s p c) db.
Proof. unfold find. apply list_filter_iff. intros t. apply matches_filter_dict. Qed.

Lemma get_tasks_run s p c db :
  get_tasks s p c db =
    (db, inr (take 1000 (sort_created_at_desc
                           (filter (applied_match s p c) db)))).
Proof.
  unfold get_tasks, hbind, await_read, hret, to_list.
  by rewrite find_filter_dict.
Qed.

Lemma StronglySorted_take {A} (R : relation A) n (l : list A) :
  StronglySorted R l -> StronglySorted R (take n l).
Proof.
  intros H. rewrite <- (take_drop n l) in H.
  by apply StronglySorted_app_1_l in H.
Qed.

(** The exact-match reading fails on a category filter that is the empty
    string: the handler returns a task whose stored category is not
    empty. *)
Lemma get_tasks_exact_match_counterexample :
  get_tasks None None (Some "") sample_db
    = (sample_db, inr [sample_call; sample_report])
  /\ sample_report ∈ [sample_call; sample_report]
  /\ ~ exact_match None None (Some "") sample_report.
Proof.
  split_and!.
  - reflexivity.
  - repeat constructor.
  - intros (_ & _ & H). simpl in H. discriminate.
Qed.

Lemma applied_match_exact s p c t :
  c <> Some "" -> applied_match s p c t <-> exact_match s p c t.
Proof.
  intros Hc. unfold applied_match, exact_match.
  destruct c as [c|]; simpl; [|done].
  assert (c <> "") by congruence. tauto.
Qed.

(** Below the cap the result is all the matching tasks. *)
Lemma get_tasks_all_below_cap s p c db :
  (length (filter (applied_match s p c) db) <= 1000)%nat ->
  take 1000 (sort_created_at_desc (filter (applied_match s p c) db))
  ≡ₚ filter (applied_match s p c) db.
Proof.
  intros Hlen. unfold sort_created_at_desc.
  rewrite take_ge; [apply merge_sort_Permutation |].
  by rewrite merge_sort_Permutation.
Qed.

(** C3 (amended): [get_tasks] never fails; it returns the first 1000
    entries of the tasks that satisfy the applied filters, ordered by
    [created_at] descending.  The applied filters are the supplied
    status, the supplied priority and the supplied category unless it is
    the empty string, each an exact match, taken together; with no filter
    every task matches; when nothing matches the result is empty. *)
Theorem get_tasks_result s p c db :
  exists full,
    full ≡ₚ filter (applied_match s p c) db
    /\ StronglySorted created_at_desc full
    /\ get_tasks s p c db = (db, inr (take 1000 full))
    /\ (forall t, t ∈ take 1000 full -> t ∈ db /\ applied_match s p c t)
    /\ (length (take 1000 full) <= 1000)%nat
    /\ StronglySorted created_at_desc (take 1000 full)
    /\ ((length (filter (applied_match s p c) db) <= 1000)%nat ->
        take 1000 full ≡ₚ filter (applied_match s p c) db)
    /\ ((forall t, t ∈ db -> ~ applied_match s p c t) -> take 1000 full = [])
    /\ (forall t, applied_match None None None t)
    /\ (c <> Some "" -> forall t, applied_match s p c t <-> exact_match s p c t).
Proof.
  exists (sort_created_at_desc (filter (applied_match s p c) db)).
  assert (Hperm : sort_created_at_desc (filter (applied_match s p c) db)
                  ≡ₚ filter (applied_match s p c) db)
    by apply merge_sort_Permutation.
  assert (Hsorted : StronglySorted created_at_desc
                      (sort_created_at_desc (filter (applied_match s p c) db)))
    by apply (StronglySorted_merge_sort _).
  split_and!.
  - exact Hperm.
  - exact Hsorted.
  - apply get_tasks_run.
  - intros t Ht%subseteq_take. rewrite Hperm in Ht.
    apply list_elem_of_filter in Ht. tauto.
  - rewrite length_take. lia.
  - by apply StronglySorted_take.
  - apply get_tasks_all_below_cap.
  - intros Hnone.
    assert (Hnil : filter (applied_match s p c) db = []).
    { apply elem_of_nil_inv. intros t [Ht Hin]%list_elem_of_filter.
      by apply (Hnone t). }
    by rewrite Hnil.
  - intros t. by unfold applied_match.
  - intros Hc t. by apply applied_match_exact.
Qed.

Lemma get_tasks_result_witness :
  exists full,
    get_tasks (Some DONE) None None sample_db = (sample_db, inr (take 1000 full))
    /\ take 1000 full ≡ₚ filter (applied_match (Some DONE) None None) sample_db.
Proof.
  destruct (get_tasks_result (Some DONE) None None sample_db)
    as (full & _ & _ & Hrun & _ & _ & _ & Hall & _).
  exists full. split; [exact Hrun |].
  apply Hall. vm_compute. lia.
Defined.

(** C10: a category filter that is the empty string is dropped: the
    handler behaves as with no category filter, so every task that passes
    the status and priority filters is a candidate, whatever its stored
    category. *)
Theorem get_tasks_empty_category s p db :
  get_tasks s p (Some "") db = get_tasks s p None db
  /\ filter_dict s p (Some "") = filter_dict s p None
  /\ forall t, t ∈ db -> (length db <= 1000)%nat ->
       exact_match s p None t ->
       exists l, get_tasks s p (Some "") db = (db, inr l) /\ t ∈ l.
Proof.
  split_and!; [done.. |].
  intros t Hin Hlen (H1 & H2 & _).
  eexists. split; [apply get_tasks_run |].
  rewrite get_tasks_all_below_cap
    by (etrans; [apply length_filter | done]).
  apply list_elem_of_filter. split; [|done].
  unfold applied_match; simpl.
  split_and!; [done | done | intros Hne; by destruct Hne].
Qed.

Lemma get_tasks_empty_category_witness :
  exists l, get_tasks None None (Some "") sample_db = (sample_db, inr l)
            /\ sample_report ∈ l
            /\ task_category sample_report = Some "work".
Proof.
  destruct (proj2 (proj2 (get_tasks_empty_category None None sample_db))
              sample_report) as (l & Hrun & Hin).
  - repeat constructor.
  - simpl. lia.
  - by split_and!.
  - exists l. by split_and!.
Defined.

(** ** create_task *)

(** The task object is returned as built; the store holds its encoded
    copy. *)
Lemma create_task_acked uuid t1 t2 input db :
  create_task uuid t1 t2 true input db =
    (db ++ [bson_task (Task_of_TaskCreate uuid t1 t2 input)],
     inr (Task_of_TaskCreate uuid t1 t2 input)).
Proof. reflexivity. Qed.

(** The test of [result.inserted_id] passes also for a write the store
    did not take. *)
Lemma create_task_not_acked uuid t1 t2 input db :
  create_task uuid t1 t2 false input db =
    (db, inr (Task_of_TaskCreate uuid t1 t2 input)).
Proof. reflexivity. Qed.

(** C4: for a body with a title (and no [null] where the model does not
    allow one) the handler builds a task carrying the generated [id],
    [created_at] and [updated_at], the body's values, and the declared
    default for every member the body leaves out, and returns it; a write
    the store took leaves the encoded task in the collection.  The 500 the
    handler means to answer is never answered: a write the store did not
    take is answered with the task as well, because the driver fills
    [inserted_id] before it sends the document. *)
Theorem create_task_spec b title uuid t1 t2 db :
  tcb_title b = Value title ->
  tcb_priority b <> Null -> tcb_status b <> Null -> tcb_subtasks b <> Null ->
  exists input task,
    TaskCreate_validate b = Some input
    /\ create_task uuid t1 t2 true input db
       = (db ++ [bson_task task], inr task)
    /\ create_task uuid t1 t2 false input db = (db, inr task)
    /\ (forall ack db' e,
          create_task uuid t1 t2 ack input db <> (db', inl e))
    /\ task_id task = uuid
    /\ task_created_at task = t1
    /\ task_updated_at task = t2
    /\ task_title task = title
    /\ (tcb_description b = Absent -> task_description task = Some "")
    /\ (tcb_category b = Absent -> task_category task = Some "")
    /\ (tcb_priority b = Absent -> task_priority task = MEDIUM)
    /\ (tcb_status b = Absent -> task_status task = TODO)
    /\ (tcb_subtasks b = Absent -> task_subtasks task = [])
    /\ (tcb_due_date b = Absent -> task_due_date task = None)
    /\ (forall v, tcb_description b = Value v -> task_description task = Some v)
    /\ (forall v, tcb_category b = Value v -> task_category task = Some v)
    /\ (forall v, tcb_priority b = Value v -> task_priority task = v)
    /\ (forall v, tcb_status b = Value v -> task_status task = v)
    /\ (forall v, tcb_subtasks b = Value v -> task_subtasks task = v)
    /\ (forall v, tcb_due_date b = Value v -> task_due_date task = Some v).
Proof.
  intros Htitle Hp Hs Hsub.
  destruct b as [ttl dsc due pri cat sta subs]; simpl in *. subst ttl.
  destruct pri as [| |pri]; [|done|]; (destruct sta as [| |sta]; [|done|]);
    (destruct subs as [| |subs]; [|done|]);
    (eexists _, _; split; [reflexivity|];
     split; [apply create_task_acked|];
     split; [apply create_task_not_acked|];
     split; [by intros [|] ? ? |];
     simpl; split_and!; try done; try (by intros ->);
     try (intros v [= ->]; reflexivity)).
Qed.

Lemma create_task_spec_witness :
  exists task,
    create_task "id-9" 40000 41000 true
      (mkTaskCreate "Write report" (Some "") None MEDIUM (Some "") TODO [])
      sample_db = (sample_db ++ [bson_task task], inr task)
    /\ create_task "id-9" 40000 41000 false
         (mkTaskCreate "Write report" (Some "") None MEDIUM (Some "") TODO [])
         sample_db = (sample_db, inr task)
    /\ task_status task = TODO /\ task_subtasks task = [].
Proof.
  destruct (create_task_spec title_only_body "Write report" "id-9" 40000 41000
              sample_db eq_refl)
    as (input & task & Hv & Hrun & Hno & _ & _ & _ & _ & _ & _ & _ & _ & Hst
        & Hsub & _);
    [discriminate | discriminate | discriminate |].
  injection Hv as <-.
  exists task.
  split_and!;
    [exact Hrun | exact Hno | exact (Hst eq_refl) | exact (Hsub eq_refl)].
Defined.

(** ** get_dashboard_stats *)

Lemma matches_overdue now t :
  matches [DueDateLt now; StatusNe DONE] t <-> overdue (bson_date now) t.
Proof.
  unfold matches, overdue; simpl. rewrite andb_true_r, andb_True.
  rewrite negb_True, bool_decide_spec.
  destruct (task_due_date t); simpl; [by rewrite bool_decide_spec | done].
Qed.

Lemma get_dashboard_stats_run now db :
  exists stats,
    get_dashboard_stats now db = (db, inr stats)
    /\ overdue_count stats = overdue_tasks (bson_date now) db.
Proof.
  eexists. split; [reflexivity |]. simpl.
  unfold count_documents, overdue_tasks. f_equal. f_equal.
  apply list_filter_iff. intros t. apply matches_overdue.
Qed.

Lemma overdue_tasks_app now db1 db2 :
  overdue_tasks now (db1 ++ db2) = overdue_tasks now db1 + overdue_tasks now db2.
Proof. unfold overdue_tasks. rewrite filter_app, length_app. lia. Qed.

Lemma list_find_id_fresh_app id db t :
  (forall t', t' ∈ db -> task_id t' <> id) -> task_id t = id ->
  list_find (fun t => matches [IdEq id] t) (db ++ [t]) = Some (length db, t).
Proof.
  intros Hfresh Hid. apply list_find_Some. split_and!.
  - rewrite lookup_app_r by lia. by rewrite Nat.sub_diag.
  - by apply (proj2 (matches_IdEq id t)).
  - intros j y Hj Hlt. rewrite lookup_app_l in Hj by lia.
    intros Hy%matches_IdEq. eapply Hfresh; [|exact Hy].
    by eapply list_elem_of_lookup_2.
Qed.

(** C6: the overdue count the dashboard reports is the number of stored
    tasks whose due date is strictly before [now] and whose status is not
    Done, the comparison being made on dates as the store keeps them.  A
    task created with a past due date and status To Do is counted; once
    its status is updated to Done it no longer is. *)
Theorem dashboard_overdue_count now db :
  (exists stats,
     get_dashboard_stats now db = (db, inr stats)
     /\ overdue_count stats
        = Z.of_nat (length (filter (overdue (bson_date now)) db)))
  /\ forall uuid t1 t2 input due t_upd,
      tc_due_date input = Some due -> bson_date due < bson_date now ->
      tc_status input = TODO ->
      (forall t, t ∈ db -> task_id t <> uuid) ->
      exists db1 task stats1,
        create_task uuid t1 t2 true input db = (db1, inr task)
        /\ bson_task task ∈ db1 /\ overdue (bson_date now) (bson_task task)
        /\ get_dashboard_stats now db1 = (db1, inr stats1)
        /\ overdue_count stats1 = overdue_tasks (bson_date now) db + 1
        /\ exists db2 task' stats2,
             update_task t_upd uuid (status_update DONE) db1 = (db2, inr task')
             /\ task' ∈ db2 /\ task_status task' = DONE
             /\ ~ overdue (bson_date now) task'
             /\ get_dashboard_stats now db2 = (db2, inr stats2)
             /\ overdue_count stats2 = overdue_tasks (bson_date now) db.
Proof.
  split; [apply get_dashboard_stats_run |].
  intros uuid t1 t2 input due t_upd Hdue Hlt Hst Hfresh.
  set (task := bson_task (Task_of_TaskCreate uuid t1 t2 input)).
  assert (Hover : overdue (bson_date now) task).
  { unfold overdue, task; simpl. rewrite Hdue, Hst. by simpl. }
  destruct (get_dashboard_stats_run now (db ++ [task])) as (stats1 & Hs1 & Hc1).
  exists (db ++ [task]), (Task_of_TaskCreate uuid t1 t2 input), stats1.
  split; [apply create_task_acked |].
  split; [apply elem_of_app; right; constructor |].
  split; [done |]. split; [done |].
  split.
  { rewrite Hc1, overdue_tasks_app. unfold overdue_tasks at 2.
    rewrite filter_cons_True by done. simpl. lia. }
  set (task' := merge_update (status_update DONE) t_upd task).
  assert (Hfind : list_find (fun t => matches [IdEq uuid] t) (db ++ [task])
                  = Some (length db, task))
    by (by apply list_find_id_fresh_app).
  assert (Hne : task' <> task).
  { intros Heq. assert (Hs : task_status task' = task_status task) by by rewrite Heq.
    unfold task', task in Hs; simpl in Hs. rewrite Hst in Hs. discriminate. }
  assert (Hnot : ~ overdue (bson_date now) task').
  { intros [_ H]. by apply H. }
  assert (Hdb2 : <[length db := task']> (db ++ [task]) = db ++ [task']).
  { rewrite <- (Nat.add_0_r (length db)). by rewrite insert_app_r. }
  destruct (get_dashboard_stats_run now (db ++ [task'])) as (stats2 & Hs2 & Hc2).
  exists (db ++ [task']), task', stats2.
  split.
  { rewrite (update_task_found _ _ _ _ _ _ Hfind). fold task'.
    destruct (decide (task' = task)); [done |]. by rewrite Hdb2. }
  split; [apply elem_of_app; right; constructor |].
  split; [done |]. split; [done |]. split; [done |].
  rewrite Hc2, overdue_tasks_app. unfold overdue_tasks at 2.
  rewrite filter_cons_False by done. simpl. lia.
Qed.

Lemma dashboard_overdue_count_witness :
  exists db1 task stats1,
    create_task "id-9" 40000 41000 true late_input sample_db = (db1, inr task)
    /\ get_dashboard_stats 50000 db1 = (db1, inr stats1)
    /\ overdue_count stats1 = overdue_tasks 50000 sample_db + 1.
Proof.
  destruct (proj2 (dashboard_overdue_count 50000 sample_db)
              "id-9" 40000 41000 late_input 3000 45000 eq_refl eq_refl eq_refl)
    as (db1 & task & stats1 & Hc & _ & _ & Hs & Hn & _).
  - intros t Ht. vm_compute in Ht.
    apply list_elem_of_In in Ht. simpl in Ht.
    destruct Ht as [<- | [<- | []]]; discriminate.
  - exists db1, task, stats1. by split_and!.
Defined.

(** ** delete_task and get_task *)

Lemma get_task_missing id db :
  find_one [IdEq id] db = None ->
  get_task id db = (db, inl (mkHTTPException 404 "Task not found")).
Proof. intros H. unfold get_task, hbind, await_read. by rewrite H. Qed.

Lemma get_task_found id db t :
  find_one [IdEq id] db = Some t -> get_task id db = (db, inr t).
Proof. intros H. unfold get_task, hbind, await_read. by rewrite H. Qed.

Lemma delete_task_missing id db :
  find_one [IdEq id] db = None ->
  delete_task id db = (db, inl (mkHTTPException 404 "Task not found")).
Proof.
  intros H%find_one_None.
  unfold delete_task, hbind, await, delete_one. by rewrite H.
Qed.

Lemma delete_task_found id db i t :
  list_find (fun t => matches [IdEq id] t) db = Some (i, t) ->
  delete_task id db =
    (delete i db, inr (mkMessage "Task deleted successfully")).
Proof.
  intros H. unfold delete_task, hbind, await, delete_one. by rewrite H.
Qed.

(** With distinct ids, removing the first task that has [id] leaves none
    that has it. *)
Lemma unique_ids_delete_gone id db i t :
  unique_ids db ->
  list_find (fun t => matches [IdEq id] t) db = Some (i, t) ->
  find_one [IdEq id] (delete i db) = None.
Proof.
  intros Huniq (Hi & Hm & _)%list_find_Some.
  apply find_one_None_id. intros t' [j Hj]%list_elem_of_lookup Hid.
  pose proof (proj1 (matches_IdEq id t) Hm) as Hidt.
  rewrite list_lookup_delete in Hj.
  destruct (decide (j < i)%nat) as [Hlt|Hge].
  - assert (i = j) by (eapply unique_ids_lookup; eauto; congruence). lia.
  - assert (i = S j) by (eapply unique_ids_lookup; eauto; congruence). lia.
Qed.

(** Distinct ids are kept by every write the handlers make; an insert
    keeps them when the new id is fresh. *)
Lemma unique_ids_insert_fresh db t :
  unique_ids db -> (forall t', t' ∈ db -> task_id t' <> task_id t) ->
  unique_ids (db ++ [t]).
Proof.
  unfold unique_ids. intros Hnd Hfresh. rewrite fmap_app. apply NoDup_app.
  split_and!; [done | | apply NoDup_singleton].
  intros x (t' & -> & Hin)%list_elem_of_fmap [= Heq]%list_elem_of_singleton.
  by apply (Hfresh t').
Qed.

Lemma unique_ids_update_one q ops db :
  unique_ids db -> unique_ids (update_one q ops db).1.
Proof.
  unfold unique_ids, update_one. intros Hnd.
  destruct (list_find _ db) as [[i t]|] eqn:Hi; simpl; [|done].
  apply list_find_Some in Hi as (Hi & _).
  rewrite list_fmap_insert, apply_update_id, list_insert_id; [done |].
  by rewrite list_lookup_fmap, Hi.
Qed.

Lemma unique_ids_delete_one q db :
  unique_ids db -> unique_ids (delete_one q db).1.
Proof.
  unfold unique_ids, delete_one. intros Hnd.
  destruct (list_find _ db) as [[i t]|]; simpl; [|done].
  rewrite list_fmap_delete. eapply sublist_NoDup; [exact Hnd | apply sublist_delete].
Qed.

(** C7: [delete_task] answers 404 when the store reports no removed
    document, and a plain acknowledgement when it removed one; after a
    successful delete, [get_task] on the same id answers 404. *)
Theorem delete_task_spec id db :
  (deleted_count (delete_one [IdEq id] db).2 <> 1 ->
   delete_task id db = (db, inl (mkHTTPException 404 "Task not found")))
  /\ (find_one [IdEq id] db = None ->
      deleted_count (delete_one [IdEq id] db).2 = 0)
  /\ (forall t, find_one [IdEq id] db = Some t ->
      exists i, db !! i = Some t
        /\ delete_task id db
           = (delete i db, inr (mkMessage "Task deleted successfully")))
  /\ (forall db' m, unique_ids db ->
      delete_task id db = (db', inr m) ->
      get_task id db' = (db', inl (mkHTTPException 404 "Task not found"))).
Proof.
  split_and!.
  - intros Hcount. apply delete_task_missing, find_one_None.
    unfold delete_one in Hcount.
    destruct (list_find _ db) as [[i t]|]; [by destruct Hcount | done].
  - intros H%find_one_None. unfold delete_one. by rewrite H.
  - intros t [i Hi]%find_one_Some. exists i.
    split; [by apply list_find_Some in Hi as (? & _) |].
    by apply delete_task_found with t.
  - intros db' m Huniq Hrun.
    destruct (find_one [IdEq id] db) as [t|] eqn:Hf.
    + pose proof Hf as [i Hi]%find_one_Some.
      rewrite (delete_task_found _ _ _ _ Hi) in Hrun. injection Hrun as <- _.
      apply get_task_missing. by apply unique_ids_delete_gone with t.
    + rewrite delete_task_missing in Hrun by done. discriminate.
Qed.

Lemma sample_db_unique : unique_ids sample_db.
Proof.
  unfold unique_ids. apply (bool_decide_unpack _). vm_compute. exact I.
Defined.

Lemma delete_task_spec_witness :
  delete_task "nobody" sample_db
    = (sample_db, inl (mkHTTPException 404 "Task not found"))
  /\ get_task "id-1" [sample_call]
    = ([sample_call], inl (mkHTTPException 404 "Task not found")).
Proof.
  split.
  - apply (proj1 (delete_task_spec "nobody" sample_db)).
    vm_compute. discriminate.
  - apply (proj2 (proj2 (proj2 (delete_task_spec "id-1" sample_db)))
             [sample_call] (mkMessage "Task deleted successfully")
             sample_db_unique eq_refl).
Defined.

(** ** update_subtask *)

Section UpdateSubtask.

Variables (now : datetime) (tid sid : string) (completed : bool).

Let q2 : Query := [IdEq tid; SubtaskIdEq sid].
Let ops : list SetOp := [SetSubtasksPosCompleted completed; SetUpdatedAt now].

Lemma holds_SubtaskIdEq t :
  holds (SubtaskIdEq sid) t <->
  exists s, s ∈ task_subtasks t /\ subtask_id s = sid.
Proof.
  rewrite Is_true_true. simpl. rewrite existsb_exists. split.
  - intros (s & Hin & Hs). exists s. split; [by apply list_elem_of_In |].
    by apply bool_decide_eq_true in Hs.
  - intros (s & Hin & Hs). exists s. split; [by apply list_elem_of_In |].
    by apply bool_decide_eq_true.
Qed.

Lemma matches_q2 t :
  matches q2 t <->
  task_id t = tid /\ exists s, s ∈ task_subtasks t /\ subtask_id s = sid.
Proof.
  unfold q2, matches. cbn [forallb]. rewrite andb_true_r, andb_True.
  rewrite holds_SubtaskIdEq. simpl.
  by rewrite bool_decide_spec.
Qed.

Lemma apply_update_q2 t j s :
  list_find (fun s => subtask_id s = sid) (task_subtasks t) = Some (j, s) ->
  apply_update q2 ops t = mark_subtask now completed j t.
Proof.
  intros H. unfold apply_update, q2, ops. simpl. by rewrite H.
Qed.

(** With distinct ids the compound query can only match the task that
    has the id. *)
Lemma list_find_q2 db i t :
  unique_ids db ->
  list_find (fun t => matches [IdEq tid] t) db = Some (i, t) ->
  list_find (fun t => matches q2 t) db =
    match list_find (fun s => subtask_id s = sid) (task_subtasks t) with
    | Some _ => Some (i, t)
    | None => None
    end.
Proof.
  intros Huniq (Hi & Hm & Hleast)%list_find_Some.
  pose proof (proj1 (matches_IdEq tid t) Hm) as Hid.
  destruct (list_find _ (task_subtasks t)) as [[j s]|] eqn:Hsub.
  - apply list_find_Some in Hsub as (Hj & Hs & _).
    apply list_find_Some. split_and!; [done | |].
    + apply matches_q2. split; [done |]. exists s.
      split; [by eapply list_elem_of_lookup_2 | done].
    + intros k y Hk Hlt [Hy _]%matches_q2.
      apply (Hleast k y Hk Hlt). by apply (proj2 (matches_IdEq tid y)).
  - apply list_find_None, Forall_forall.
    intros t' [k Hk]%list_elem_of_lookup [Hid' (s & Hin & Hs)]%matches_q2.
    assert (i = k) as <- by (eapply unique_ids_lookup; eauto; congruence).
    assert (t' = t) as -> by congruence.
    rewrite list_find_None, Forall_forall in Hsub. by apply (Hsub s).
Qed.

Lemma update_subtask_missing db :
  find_one [IdEq tid] db = None ->
  update_subtask now tid sid completed db =
    (db, inl (mkHTTPException 404 "Task not found")).
Proof.
  intros H. unfold update_subtask, hbind, await_read. by rewrite H.
Qed.

Lemma update_subtask_found db i t :
  unique_ids db ->
  list_find (fun t => matches [IdEq tid] t) db = Some (i, t) ->
  update_subtask now tid sid completed db =
    match list_find (fun s => subtask_id s = sid) (task_subtasks t) with
    | Some (j, _) =>
        if decide (mark_subtask now completed j t = t)
        then (db, inl (mkHTTPException 404 "Subtask not found"))
        else (<[i := mark_subtask now completed j t]> db, inr (mark_subtask now completed j t))
    | None => (db, inl (mkHTTPException 404 "Subtask not found"))
    end.
Proof.
  intros Huniq H.
  assert (Hf : find_one [IdEq tid] db = Some t) by (apply find_one_Some; eauto).
  unfold update_subtask, hbind, await_read, await. rewrite Hf. simpl.
  unfold update_one. fold q2 ops. rewrite (list_find_q2 _ _ _ Huniq H).
  destruct (list_find _ (task_subtasks t)) as [[j s]|] eqn:Hsub; [|done].
  rewrite (apply_update_q2 _ _ _ Hsub). simpl.
  pose proof H as (Hi & Hm & _)%list_find_Some.
  destruct (decide (mark_subtask now completed j t = t)) as [Heq|Hne]; simpl.
  - rewrite Heq. by rewrite list_insert_id.
  - assert (Hf' : find_one [IdEq tid] (<[i := mark_subtask now completed j t]> db)
                  = Some (mark_subtask now completed j t)).
    { apply find_one_Some. exists i. apply list_find_insert_same with t; [done |].
      apply (proj2 (matches_IdEq tid _)). exact (proj1 (matches_IdEq tid t) Hm). }
    by rewrite Hf'.
Qed.

End UpdateSubtask.

(** The two failures of [update_subtask] are not answered alike: both
    are 404, but a missing task and a missing subtask carry different
    details. *)
Lemma update_subtask_failures_differ :
  update_subtask 30000 "nobody" "s-a" true sample_db
    = (sample_db, inl (mkHTTPException 404 "Task not found"))
  /\ update_subtask 30000 "id-1" "s-zz" true sample_db
    = (sample_db, inl (mkHTTPException 404 "Subtask not found"))
  /\ (update_subtask 30000 "nobody" "s-a" true sample_db).2
     <> (update_subtask 30000 "id-1" "s-zz" true sample_db).2.
Proof. split_and!; [reflexivity | reflexivity | discriminate]. Qed.

(** C5 (amended): on a collection with distinct ids, [update_subtask]
    answers 404 with detail "Task not found" when no task has the task
    id, and 404 with detail "Subtask not found" when the task has no
    subtask with the subtask id; every failure is a 404 and leaves the
    collection as it was.  When the task has such a subtask and the
    request changes the flag or comes at a later reading than the stored
    [updated_at], it succeeds.  On success the first subtask with that id
    has its [completed] flag set to the given value, [updated_at] is the
    current time as the store keeps it, and every other subtask, every
    other field and every other task is unchanged. *)
Theorem update_subtask_spec now tid sid c db :
  unique_ids db ->
  (find_one [IdEq tid] db = None ->
   update_subtask now tid sid c db =
     (db, inl (mkHTTPException 404 "Task not found")))
  /\ (forall t, find_one [IdEq tid] db = Some t ->
      (forall s, s ∈ task_subtasks t -> subtask_id s <> sid) ->
      update_subtask now tid sid c db =
        (db, inl (mkHTTPException 404 "Subtask not found")))
  /\ (forall db' e, update_subtask now tid sid c db = (db', inl e) ->
      status_code e = 404 /\ db' = db)
  /\ (forall t j s, find_one [IdEq tid] db = Some t ->
      list_find (fun s => subtask_id s = sid) (task_subtasks t) = Some (j, s) ->
      subtask_completed s <> c \/ task_updated_at t <> bson_date now ->
      exists db',
        update_subtask now tid sid c db = (db', inr (mark_subtask now c j t)))
  /\ (forall db' t', update_subtask now tid sid c db = (db', inr t') ->
      exists i t j s,
        db !! i = Some t /\ task_id t = tid
        /\ task_subtasks t !! j = Some s /\ subtask_id s = sid
        /\ (forall k s', (k < j)%nat -> task_subtasks t !! k = Some s' ->
              subtask_id s' <> sid)
        /\ db' = <[i := t']> db
        /\ t' = mark_subtask now c j t
        /\ task_updated_at t' = bson_date now
        /\ task_subtasks t' !! j = Some (mkSubtask sid (subtask_text s) c)
        /\ (forall k, k <> j -> task_subtasks t' !! k = task_subtasks t !! k)).
Proof.
  intros Huniq. split_and!.
  - apply update_subtask_missing.
  - intros t [i Hi]%find_one_Some Hnone.
    rewrite (update_subtask_found _ _ _ _ _ _ _ Huniq Hi).
    destruct (list_find _ (task_subtasks t)) as [[j s]|] eqn:Hsub; [|done].
    apply list_find_Some in Hsub as (Hj & Hs & _).
    destruct (Hnone s); [by eapply list_elem_of_lookup_2 | done].
  - intros db' e Hrun.
    destruct (find_one [IdEq tid] db) as [t|] eqn:Hf.
    + pose proof Hf as [i Hi]%find_one_Some.
      rewrite (update_subtask_found _ _ _ _ _ _ _ Huniq Hi) in Hrun.
      destruct (list_find _ (task_subtasks t)) as [[j s]|].
      * destruct (decide _); [|discriminate]. by injection Hrun as <- <-.
      * by injection Hrun as <- <-.
    + rewrite update_subtask_missing in Hrun by done. by injection Hrun as <- <-.
  - intros t j s [i Hi]%find_one_Some Hsub Hchange.
    rewrite (update_subtask_found _ _ _ _ _ _ _ Huniq Hi), Hsub.
    apply list_find_Some in Hsub as (Hj & Hs0 & _).
    destruct (decide (mark_subtask now c j t = t)) as [Heq|Hne];
      [|by eexists].
    destruct Hchange as [Hflag|Hclk].
    + destruct Hflag.
      assert (H : task_subtasks (mark_subtask now c j t) !! j
                  = task_subtasks t !! j) by by rewrite Heq.
      simpl in H. rewrite list_lookup_alter_eq, Hj in H. simpl in H.
      by injection H as <-.
    + destruct Hclk. by rewrite <- Heq.
  - intros db' t' Hrun.
    destruct (find_one [IdEq tid] db) as [t|] eqn:Hf.
    2: { rewrite update_subtask_missing in Hrun by done. discriminate. }
    pose proof Hf as [i Hi]%find_one_Some.
    rewrite (update_subtask_found _ _ _ _ _ _ _ Huniq Hi) in Hrun.
    destruct (list_find _ (task_subtasks t)) as [[j s]|] eqn:Hsub;
      [|discriminate].
    destruct (decide _); [discriminate |]. injection Hrun as <- <-.
    apply list_find_Some in Hsub as (Hj & Hs & Hleast).
    apply list_find_Some in Hi as (Hi & Hm & _).
    exists i, t, j, s. split_and!; try done.
    + exact (proj1 (matches_IdEq tid t) Hm).
    + intros k s' Hk Hs'. by apply (Hleast k s').
    + simpl. rewrite list_lookup_alter_eq, Hj. simpl.
      unfold set_completed. by rewrite Hs.
    + intros k Hk. simpl. by rewrite list_lookup_alter_ne.
Qed.

Lemma update_subtask_spec_witness :
  update_subtask 30000 "id-1" "s-zz" true sample_db
    = (sample_db, inl (mkHTTPException 404 "Subtask not found"))
  /\ exists db' t',
       update_subtask 30000 "id-1" "s-a" true sample_db = (db', inr t')
       /\ task_updated_at t' = 30000
       /\ task_subtasks t' !! 0%nat = Some (mkSubtask "s-a" "a" true)
       /\ task_subtasks t' !! 1%nat = Some (mkSubtask "s-b" "b" false).
Proof.
  destruct (update_subtask_spec 30000 "id-1" "s-zz" true sample_db
              sample_db_unique) as (_ & Hsub & _).
  destruct (update_subtask_spec 30000 "id-1" "s-a" true sample_db
              sample_db_unique) as (_ & _ & _ & Hgo & _).
  split.
  - apply (Hsub sample_report eq_refl).
    intros s Hin. apply list_elem_of_In in Hin. simpl in Hin.
    destruct Hin as [<- | [<- | []]]; discriminate.
  - destruct (Hgo sample_report 0%nat (mkSubtask "s-a" "a" false)
                eq_refl eq_refl) as (db' & Hrun).
    + left. discriminate.
    + exists db', (mark_subtask 30000 true 0 sample_report).
      by split_and!.
Defined.

Lemma timely_mono clk clk' t : clk <= clk' -> timely clk t -> timely clk' t.
Proof. unfold timely. lia. Qed.

Lemma Forall_timely_mono clk clk' (db : Collection) :
  clk <= clk' -> Forall (timely clk) db -> Forall (timely clk') db.
Proof.
  intros Hle H. eapply Forall_impl; [exact H |].
  intros t. by apply timely_mono.
Qed.

Lemma timely_in_order clk t : timely clk t -> in_order t.
Proof. by intros [? _]. Qed.

Lemma Forall_timely_in_order clk (l : list Task) :
  Forall (timely clk) l -> Forall in_order l.
Proof.
  intros H. eapply Forall_impl; [exact H |].
  intros t. apply timely_in_order.
Qed.

Lemma update_dict_stamps q u now t :
  task_created_at (apply_update q (update_dict u now) t) = task_created_at t
  /\ task_updated_at (apply_update q (update_dict u now) t) = bson_date now.
Proof.
  split; [apply apply_update_created_at |].
  unfold apply_update, update_dict. by rewrite foldl_app.
Qed.

Lemma subtask_set_stamps q c now t :
  task_created_at
    (apply_update q [SetSubtasksPosCompleted c; SetUpdatedAt now] t)
  = task_created_at t
  /\ task_updated_at
       (apply_update q [SetSubtasksPosCompleted c; SetUpdatedAt now] t)
     = bson_date now.
Proof. split; [apply apply_update_created_at | reflexivity]. Qed.

(** A rewrite that keeps [created_at] and stamps [updated_at] with a
    reading of the clock, as the store keeps it, keeps a timely task
    timely. *)
Lemma timely_restamp clk now t t' :
  timely clk t -> clk <= now ->
  task_created_at t' = task_created_at t ->
  task_updated_at t' = bson_date now ->
  timely now t'.
Proof.
  unfold timely. intros (H1 & H2 & H3) Hle -> ->.
  pose proof (bson_date_le now).
  pose proof (bson_date_le_stored (task_created_at t) now H3).
  lia.
Qed.

(** The encoded copy of a task built at two readings in order. *)
Lemma timely_bson_task t1 t2 t :
  task_created_at t = t1 -> task_updated_at t = t2 -> t1 <= t2 ->
  timely t2 (bson_task t).
Proof.
  intros <- <- Hle. unfold timely. simpl.
  pose proof (bson_date_mono _ _ Hle).
  pose proof (bson_date_le (task_updated_at t)).
  by rewrite bson_date_idemp.
Qed.

Section ServeTimely.

Variables (clk t1 t2 : datetime) (db : Collection).
Hypothesis Hdb : Forall (timely clk) db.
Hypothesis Hclk : clk <= t1.
Hypothesis Hread : t1 <= t2.

Let Hdb2 : Forall (timely t2) db.
Proof. apply Forall_timely_mono with clk; [lia | done]. Qed.

Lemma create_task_timely uuid ack input :
  Forall (timely t2) (create_task uuid t1 t2 ack input db).1
  /\ forall t, (create_task uuid t1 t2 ack input db).2 = inr t -> in_order t.
Proof.
  assert (Hobj : in_order (Task_of_TaskCreate uuid t1 t2 input)) by done.
  destruct ack.
  - rewrite create_task_acked. simpl.
    split; [|by intros t [= <-]].
    apply Forall_app. split; [done |]. apply Forall_singleton.
    by apply timely_bson_task with t1.
  - rewrite create_task_not_acked. simpl. split; [done | by intros t [= <-]].
Qed.

Lemma get_tasks_timely s p c :
  (get_tasks s p c db).1 = db
  /\ forall l, (get_tasks s p c db).2 = inr l -> Forall (timely t2) l.
Proof.
  rewrite get_tasks_run. simpl. split; [done |]. intros l [= <-].
  apply Forall_take. unfold sort_created_at_desc.
  rewrite merge_sort_Permutation. apply Forall_forall.
  intros t [_ Hin]%list_elem_of_filter.
  exact (proj1 (Forall_forall _ _) Hdb2 _ Hin).
Qed.

Lemma get_task_timely id :
  (get_task id db).1 = db
  /\ forall t, (get_task id db).2 = inr t -> timely t2 t.
Proof.
  destruct (find_one [IdEq id] db) as [t|] eqn:Hf.
  - rewrite (get_task_found _ _ _ Hf). simpl. split; [done |].
    intros ? [= <-]. apply find_one_elem in Hf as [Hin _].
    exact (proj1 (Forall_forall _ _) Hdb2 _ Hin).
  - rewrite (get_task_missing _ _ Hf). simpl. split; [done | discriminate].
Qed.

Lemma update_task_timely id u :
  Forall (timely t2) (update_task t1 id u db).1
  /\ forall t, (update_task t1 id u db).2 = inr t -> timely t2 t.
Proof.
  destruct (find_one [IdEq id] db) as [t|] eqn:Hf.
  2: { rewrite (update_task_missing _ _ _ _ Hf). simpl.
       split; [done | discriminate]. }
  pose proof Hf as [i Hi]%find_one_Some.
  rewrite (update_task_found _ _ _ _ _ _ Hi).
  destruct (decide _); simpl; [split; [done | discriminate] |].
  assert (Ht : timely t2 (merge_update u t1 t)).
  { apply timely_mono with t1; [done |].
    apply timely_restamp with clk t; try done.
    apply find_one_elem in Hf as [Hin _].
    exact (proj1 (Forall_forall _ _) Hdb _ Hin). }
  split; [by apply Forall_insert | by intros ? [= <-]].
Qed.

Lemma delete_task_timely id :
  Forall (timely t2) (delete_task id db).1.
Proof.
  destruct (find_one [IdEq id] db) as [t|] eqn:Hf.
  - pose proof Hf as [i Hi]%find_one_Some.
    rewrite (delete_task_found _ _ _ _ Hi). simpl. by apply Forall_delete.
  - by rewrite (delete_task_missing _ _ Hf).
Qed.

Lemma update_subtask_timely id sid c :
  Forall (timely t2) (update_subtask t1 id sid c db).1
  /\ forall t, (update_subtask t1 id sid c db).2 = inr t -> timely t2 t.
Proof.
  unfold update_subtask, hbind, await_read, await.
  destruct (find_one [IdEq id] db) as [t|]; simpl;
    [|split; [done | discriminate]].
  unfold update_one.
  destruct (list_find _ db) as [[k t0]|] eqn:Hk; simpl;
    [|split; [done | discriminate]].
  destruct (decide _) as [Heq|Hne]; simpl.
  { rewrite Heq. apply list_find_Some in Hk as (Hk & _).
    rewrite list_insert_id by done. split; [done | discriminate]. }
  set (t' := apply_update _ _ t0).
  assert (Hall : Forall (timely t2) (<[k := t']> db)).
  { apply Forall_insert; [done |].
    apply timely_mono with t1; [done |].
    destruct (subtask_set_stamps [IdEq id; SubtaskIdEq sid] c t1 t0).
    apply timely_restamp with clk t0; try done.
    apply list_find_Some in Hk as (Hk & _).
    by eapply Forall_lookup_1. }
  destruct (find_one [IdEq id] (<[k := t']> db)) as [t''|] eqn:Hf'; simpl.
  - split; [done |]. intros ? [= <-].
    apply find_one_elem in Hf' as [Hin _].
    exact (proj1 (Forall_forall _ _) Hall _ Hin).
  - split; [done | discriminate].
Qed.

End ServeTimely.

Lemma serve_timely req clk t1 t2 db :
  Forall (timely clk) db -> clk <= t1 -> t1 <= t2 ->
  Forall (timely t2) (serve req t1 t2 db).1
  /\ Forall in_order (response_tasks (serve req t1 t2 db).2).
Proof.
  intros Hdb Hclk Hread.
  assert (Hdb2 : Forall (timely t2) db)
    by (apply Forall_timely_mono with clk; [lia | done]).
  destruct req as [uuid ack input|s p c|id|id u|id| |id sid c];
    unfold serve, respond; cbn [fst snd].
  - destruct (create_task_timely clk t1 t2 db Hdb Hclk Hread uuid ack input)
      as [H1 H2].
    split; [done |]. destruct (create_task _ _ _ _ _ _).2 eqn:E; simpl;
      [done | by apply Forall_singleton, H2].
  - destruct (get_tasks_timely clk t1 t2 db Hdb Hclk Hread s p c) as [H1 H2].
    rewrite H1. split; [done |].
    destruct (get_tasks _ _ _ _).2 eqn:E; simpl; [done |].
    apply Forall_timely_in_order with t2. by apply H2.
  - destruct (get_task_timely clk t1 t2 db Hdb Hclk Hread id) as [H1 H2].
    rewrite H1. split; [done |].
    destruct (get_task _ _).2 eqn:E; simpl; [done |].
    apply Forall_singleton, timely_in_order with t2. by apply H2.
  - destruct (update_task_timely clk t1 t2 db Hdb Hclk Hread id u) as [H1 H2].
    split; [done |]. destruct (update_task _ _ _ _).2 eqn:E; simpl; [done |].
    apply Forall_singleton, timely_in_order with t2. by apply H2.
  - split; [by apply (delete_task_timely clk t1 t2 db Hdb Hclk Hread) |].
    by destruct (delete_task _ _).2.
  - split; [done | by simpl].
  - destruct (update_subtask_timely clk t1 t2 db Hdb Hclk Hread id sid c)
      as [H1 H2].
    split; [done |]. destruct (update_subtask _ _ _ _ _).2 eqn:E; simpl;
      [done |].
    apply Forall_singleton, timely_in_order with t2. by apply H2.
Qed.

Lemma reachable_timely w : reachable w -> Forall (timely (clock w)) (tasks w).
Proof.
  induction 1 as [c0|w req resp w' Hreach IH Hstep]; simpl; [done |].
  destruct Hstep as [w req t1 t2 H1 H2]. simpl.
  by apply (serve_timely req (clock w) t1 t2 (tasks w)).
Qed.

(** C8: in every world the service can reach, every stored task has
    [created_at <= updated_at], and so has every task any response shows
    and every task stored after any further request; the [$set]
    documents of [update_task] and [update_subtask] stamp [updated_at]
    with the current time, as the store keeps it, and leave [created_at]
    alone. *)
Theorem created_at_le_updated_at w :
  reachable w ->
  (forall t, t ∈ tasks w -> task_created_at t <= task_updated_at t)
  /\ (forall req resp w', step w req resp w' ->
      (forall t, t ∈ response_tasks resp ->
         task_created_at t <= task_updated_at t)
      /\ (forall t, t ∈ tasks w' -> task_created_at t <= task_updated_at t))
  /\ (forall q u now t,
      task_created_at (apply_update q (update_dict u now) t) = task_created_at t
      /\ task_updated_at (apply_update q (update_dict u now) t)
         = bson_date now)
  /\ (forall q c now t,
      task_created_at
        (apply_update q [SetSubtasksPosCompleted c; SetUpdatedAt now] t)
      = task_created_at t
      /\ task_updated_at
           (apply_update q [SetSubtasksPosCompleted c; SetUpdatedAt now] t)
         = bson_date now).
Proof.
  intros Hreach. pose proof (reachable_timely w Hreach) as Hw.
  split_and!.
  - intros t Hin. by destruct (proj1 (Forall_forall _ _) Hw t Hin).
  - intros req resp w' Hstep. destruct Hstep as [w req t1 t2 H1 H2].
    destruct (serve_timely req (clock w) t1 t2 (tasks w) Hw H1 H2) as [Hs Hr].
    split; intros t Hin.
    + exact (proj1 (Forall_forall _ _) Hr t Hin).
    + by destruct (proj1 (Forall_forall _ _) Hs t Hin).
  - apply update_dict_stamps.
  - apply subtask_set_stamps.
Qed.

Lemma sample_world_reachable : reachable sample_world.
Proof.
  eapply reachable_step with
    (w := mkWorld [Task_of_TaskCreate "id-9" 40000 41000 late_input] 41000)
    (req := UpdateTask "id-9" (status_update DONE)).
  - eapply reachable_step with (w := mkWorld [] 0)
      (req := CreateTask "id-9" true late_input).
    + apply reachable_init.
    + apply (step_serve (mkWorld [] 0) (CreateTask "id-9" true late_input) 40000 41000);
        simpl; lia.
  - apply (step_serve (mkWorld [Task_of_TaskCreate "id-9" 40000 41000 late_input] 41000)
             (UpdateTask "id-9" (status_update DONE)) 45000 45000); simpl; lia.
Defined.

Lemma created_at_le_updated_at_witness :
  reachable sample_world
  /\ Forall (fun t => task_created_at t <= task_updated_at t)
       (tasks sample_world).
Proof.
  split; [exact sample_world_reachable |].
  apply Forall_forall.
  exact (proj1 (created_at_le_updated_at sample_world sample_world_reachable)).
Defined.

(** * Further properties of the handlers *)

(** ** Lookup through the matching documents *)

Lemma find_one_filter q (db : Collection) :
  find_one q db = head (filter (fun t => matches q t) db).
Proof.
  unfold find_one. induction db as [|t db IH]; [done |].
  cbn [list_find]. destruct (decide (matches q t)) as [Hm|Hm].
  - by rewrite filter_cons_True.
  - rewrite filter_cons_False by done. rewrite <- IH.
    by destruct (list_find _ db) as [[i x]|].
Qed.

Lemma filter_insert_other {A} (P : A -> Prop) `{!forall x, Decision (P x)}
    (l : list A) i x y :
  l !! i = Some x -> ~ P x -> ~ P y -> filter P (<[i := y]> l) = filter P l.
Proof.
  intros Hi Hx Hy.
  rewrite insert_take_drop by (by eapply lookup_lt_Some).
  rewrite <- (take_drop_middle l i x Hi) at 3.
  rewrite !filter_app. f_equal.
  by rewrite !filter_cons_False.
Qed.

Lemma filter_delete_other {A} (P : A -> Prop) `{!forall x, Decision (P x)}
    (l : list A) i x :
  l !! i = Some x -> ~ P x -> filter P (delete i l) = filter P l.
Proof.
  intros Hi Hx. rewrite delete_take_drop.
  rewrite <- (take_drop_middle l i x Hi) at 3.
  rewrite !filter_app. f_equal. by rewrite filter_cons_False.
Qed.

Lemma get_task_find_one id db :
  (get_task id db).2 =
    match find_one [IdEq id] db with
    | Some t => inr t
    | None => inl (mkHTTPException 404 "Task not found")
    end.
Proof.
  destruct (find_one [IdEq id] db) as [t|] eqn:Hf.
  - by rewrite (get_task_found _ _ _ Hf).
  - by rewrite (get_task_missing _ _ Hf).
Qed.

(** The collection after the two updating handlers is the collection
    after their [update_one] call. *)
Lemma update_task_store now id u db :
  (update_task now id u db).1
  = (update_one [IdEq id] (update_dict u now) db).1.
Proof.
  destruct (find_one [IdEq id] db) as [t|] eqn:Hf.
  - pose proof Hf as [i Hi]%find_one_Some.
    rewrite (update_task_found _ _ _ _ _ _ Hi),
      (update_one_id_found _ _ _ _ _ _ Hi). simpl.
    destruct (decide _) as [Heq|]; simpl; [|done].
    rewrite Heq. apply list_find_Some in Hi as (Hi & _).
    by rewrite list_insert_id.
  - by rewrite (update_task_missing _ _ _ _ Hf),
      (update_one_id_missing _ _ _ _ Hf).
Qed.

Lemma matches_cons_IdEq id q t : matches (IdEq id :: q) t -> task_id t = id.
Proof.
  unfold matches. cbn [forallb]. rewrite andb_True. intros [H _].
  simpl in H. by apply bool_decide_spec in H.
Qed.

Lemma update_subtask_store now id sid c db :
  (update_subtask now id sid c db).1
  = (update_one [IdEq id; SubtaskIdEq sid]
       [SetSubtasksPosCompleted c; SetUpdatedAt now] db).1.
Proof.
  unfold update_subtask, hbind, await_read, await.
  destruct (find_one [IdEq id] db) as [t|] eqn:Hf; simpl.
  - destruct (update_one _ _ db) as [db' r]. simpl.
    destruct (modified_count r =? 1); simpl; [|done].
    by destruct (find_one [IdEq id] db').
  - unfold update_one.
    destruct (list_find _ db) as [[k t]|] eqn:Hk; [|done].
    apply list_find_Some in Hk as (Hk & Hm & _).
    apply matches_cons_IdEq in Hm.
    apply find_one_None_id with (t := t) in Hf; [done |].
    by eapply list_elem_of_lookup_2.
Qed.

(** [update_one] keeps every member function of the documents that its
    [$set] entries keep. *)
Lemma update_one_fmap {B} (f : Task -> B) q ops db :
  (forall t, f (apply_update q ops t) = f t) ->
  f <$> (update_one q ops db).1 = f <$> db.
Proof.
  intros Hf. unfold update_one.
  destruct (list_find _ db) as [[i t]|] eqn:Hi; simpl; [|done].
  apply list_find_Some in Hi as (Hi & _).
  rewrite list_fmap_insert, Hf, list_insert_id; [done |].
  by rewrite list_lookup_fmap, Hi.
Qed.

(** After [update_one] on a query that fixes the id, lookups of any other
    id see what they saw before. *)
Lemma update_one_other_id id id' q ops db :
  id' <> id ->
  find_one [IdEq id'] (update_one (IdEq id :: q) ops db).1
  = find_one [IdEq id'] db.
Proof.
  intros Hne. unfold update_one.
  destruct (list_find _ db) as [[i t]|] eqn:Hi; simpl; [|done].
  apply list_find_Some in Hi as (Hi & Hm & _).
  apply matches_cons_IdEq in Hm.
  rewrite !find_one_filter.
  rewrite (filter_insert_other _ db i t); [done | done | |].
  - intros H%matches_IdEq. congruence.
  - intros H%matches_IdEq. rewrite apply_update_id in H. congruence.
Qed.

Lemma delete_one_other_id id id' db :
  id' <> id ->
  find_one [IdEq id'] (delete_one [IdEq id] db).1 = find_one [IdEq id'] db.
Proof.
  intros Hne. unfold delete_one.
  destruct (list_find _ db) as [[i t]|] eqn:Hi; simpl; [|done].
  apply list_find_Some in Hi as (Hi & Hm & _).
  apply matches_cons_IdEq in Hm.
  rewrite !find_one_filter.
  rewrite (filter_delete_other _ db i t); [done | done |].
  intros H%matches_IdEq. congruence.
Qed.

Lemma delete_task_store id db :
  (delete_task id db).1 = (delete_one [IdEq id] db).1.
Proof.
  unfold delete_task, hbind, await.
  destruct (delete_one _ db) as [db' r]. simpl.
  by destruct (deleted_count r =? 1).
Qed.

(** ** update_task: when it fails, what it writes, what it leaves *)

(** X1: on an existing task [update_task] succeeds for every partial
    (values equal to the stored ones included) as soon as the clock
    reading, cut to the millisecond as the store keeps it, differs from
    the stored [updated_at]; its only failure on an existing task is the
    500, and then the stored [updated_at] is the current reading in
    milliseconds and every supplied field already holds the supplied
    value. *)
Theorem update_task_noop_only_failure now id u db t :
  find_one [IdEq id] db = Some t ->
  (task_updated_at t <> bson_date now ->
   exists db', update_task now id u db = (db', inr (merge_update u now t)))
  /\ (forall db' e, update_task now id u db = (db', inl e) ->
      e = mkHTTPException 500 "Failed to update task"
      /\ task_updated_at t = bson_date now
      /\ (forall v, tu_title u = Some v -> task_title t = v)
      /\ (forall v, tu_description u = Some v -> task_description t = Some v)
      /\ (forall v, tu_due_date u = Some v ->
            task_due_date t = Some (bson_date v))
      /\ (forall v, tu_priority u = Some v -> task_priority t = v)
      /\ (forall v, tu_category u = Some v -> task_category t = Some v)
      /\ (forall v, tu_status u = Some v -> task_status t = v)
      /\ (forall v, tu_subtasks u = Some v -> task_subtasks t = v)).
Proof.
  intros [i Hi]%find_one_Some.
  rewrite (update_task_found now id u _ _ _ Hi).
  destruct (decide (merge_update u now t = t)) as [Heq|Hne]; split.
  - intros Hclk. destruct Hclk. by rewrite <- Heq.
  - intros db' e [= <- <-]. split; [done |].
    split_and!; try (by rewrite <- Heq);
      intros v Hv; rewrite <- Heq; simpl; by rewrite Hv.
  - intros _. by eexists.
  - intros db' e [=].
Qed.

Lemma update_task_noop_only_failure_witness :
  exists db',
    update_task 30000 "id-1" (status_update TODO) sample_db
    = (db', inr (merge_update (status_update TODO) 30000 sample_report)).
Proof.
  apply (proj1 (update_task_noop_only_failure 30000 "id-1" (status_update TODO)
                  sample_db sample_report eq_refl)).
  vm_compute. discriminate.
Defined.

(** X2: a successful [update_task] returns a task in which every field
    the partial supplies holds the supplied value (a due date cut to the
    millisecond, as the store keeps it). *)
Theorem update_task_supplied_fields now id u db db' t' :
  update_task now id u db = (db', inr t') ->
  (forall v, tu_title u = Some v -> task_title t' = v)
  /\ (forall v, tu_description u = Some v -> task_description t' = Some v)
  /\ (forall v, tu_due_date u = Some v ->
        task_due_date t' = Some (bson_date v))
  /\ (forall v, tu_priority u = Some v -> task_priority t' = v)
  /\ (forall v, tu_category u = Some v -> task_category t' = Some v)
  /\ (forall v, tu_status u = Some v -> task_status t' = v)
  /\ (forall v, tu_subtasks u = Some v -> task_subtasks t' = v).
Proof.
  intros (i & t & _ & _ & -> & _)%update_task_success.
  split_and!; intros v Hv; simpl; by rewrite Hv.
Qed.

Lemma update_task_supplied_fields_witness :
  task_status (merge_update (status_update DONE) 30000 sample_report) = DONE.
Proof.
  apply (proj1 (proj2 (proj2 (proj2 (proj2 (proj2
           (update_task_supplied_fields 30000 "id-1" (status_update DONE)
              sample_db
              (<[0%nat := merge_update (status_update DONE) 30000 sample_report]>
                 sample_db)
              (merge_update (status_update DONE) 30000 sample_report)
              eq_refl))))))).
  reflexivity.
Defined.

(** X3: after a successful [update_task], [get_task] on the same id
    returns the task the update returned. *)
Theorem update_task_then_get_task now id u db db' t' :
  update_task now id u db = (db', inr t') ->
  get_task id db' = (db', inr t').
Proof.
  intros Hrun.
  destruct (find_one [IdEq id] db) as [t|] eqn:Hf.
  2: { rewrite update_task_missing in Hrun by done. discriminate. }
  pose proof Hf as [i Hi]%find_one_Some.
  rewrite (update_task_found now id u _ _ _ Hi) in Hrun.
  destruct (decide (merge_update u now t = t)); [discriminate |].
  injection Hrun as <- <-.
  apply get_task_found, find_one_Some. exists i.
  apply list_find_insert_same with t; [done |].
  apply list_find_Some in Hi as (_ & Hm & _).
  apply (proj2 (matches_IdEq id _)). exact (proj1 (matches_IdEq id t) Hm).
Qed.

Lemma update_task_then_get_task_witness :
  get_task "id-1"
    (<[0%nat := merge_update (status_update DONE) 30000 sample_report]> sample_db)
  = (<[0%nat := merge_update (status_update DONE) 30000 sample_report]> sample_db,
     inr (merge_update (status_update DONE) 30000 sample_report)).
Proof.
  apply (update_task_then_get_task 30000 "id-1" (status_update DONE) sample_db).
  reflexivity.
Defined.

(** ** Requests on one id and the other tasks *)

(** X4: [update_task], [update_subtask] and [delete_task] on one id leave
    what [get_task] answers for every other id as it was. *)
Theorem other_ids_untouched id id' db :
  id' <> id ->
  (forall now u,
     (get_task id' (update_task now id u db).1).2 = (get_task id' db).2)
  /\ (forall now sid c,
     (get_task id' (update_subtask now id sid c db).1).2 = (get_task id' db).2)
  /\ (get_task id' (delete_task id db).1).2 = (get_task id' db).2.
Proof.
  intros Hne. split_and!; intros; rewrite !get_task_find_one.
  - by rewrite update_task_store, update_one_other_id.
  - by rewrite update_subtask_store, update_one_other_id.
  - by rewrite delete_task_store, delete_one_other_id.
Qed.

Lemma other_ids_untouched_witness :
  (get_task "id-2" (delete_task "id-1" sample_db).1).2
  = (get_task "id-2" sample_db).2.
Proof.
  apply (other_ids_untouched "id-1" "id-2" sample_db). discriminate.
Defined.

(** ** create_task and get_task *)

(** X5: after a [create_task] whose write the store took, under an id no
    stored task has, [get_task] on that id returns the created task with
    its dates cut to the millisecond (the task as the store keeps it, not
    the object [create_task] returned), and [get_task] on any other id
    answers as before. *)
Theorem create_task_then_get_task uuid t1 t2 input db :
  (forall t, t ∈ db -> task_id t <> uuid) ->
  exists db' task,
    create_task uuid t1 t2 true input db = (db', inr task)
    /\ get_task uuid db' = (db', inr (bson_task task))
    /\ forall id', id' <> uuid -> (get_task id' db').2 = (get_task id' db).2.
Proof.
  intros Hfresh. eexists _, _. split; [apply create_task_acked |]. split.
  - apply get_task_found, find_one_Some. eexists.
    by apply list_find_id_fresh_app.
  - intros id' Hne. rewrite !get_task_find_one, !find_one_filter.
    rewrite filter_app, filter_cons_False, filter_nil, app_nil_r; [done |].
    intros H%matches_IdEq. simpl in H. congruence.
Qed.

Lemma create_task_then_get_task_witness :
  exists db' task,
    create_task "id-9" 40000 41000 true late_input sample_db = (db', inr task)
    /\ get_task "id-9" db' = (db', inr (bson_task task)).
Proof.
  destruct (create_task_then_get_task "id-9" 40000 41000 late_input sample_db)
    as (db' & task & Hc & Hg & _).
  - intros t Ht. apply list_elem_of_In in Ht. simpl in Ht.
    destruct Ht as [<- | [<- | []]]; discriminate.
  - exists db', task. by split.
Defined.

(** When the id is already taken, [get_task] keeps returning the older
    task: the created one is not reachable by its id. *)
Lemma create_task_clash_hidden :
  get_task "id-1"
    (create_task "id-1" 40000 41000 true late_input [sample_report]).1
  = ((create_task "id-1" 40000 41000 true late_input [sample_report]).1,
     inr sample_report).
Proof. reflexivity. Qed.

(** ** delete_task *)

(** X6: a successful [delete_task] removes exactly one document, the
    first one with the id: the collection before is the removed task
    together with the collection after, and the tasks that stay keep their
    order. *)
Theorem delete_task_removes_one id db t :
  find_one [IdEq id] db = Some t ->
  exists db',
    delete_task id db = (db', inr (mkMessage "Task deleted successfully"))
    /\ db ≡ₚ t :: db'
    /\ db' `sublist_of` db
    /\ length db = S (length db').
Proof.
  intros [i Hi]%find_one_Some. exists (delete i db).
  pose proof Hi as (Hl & _ & _)%list_find_Some.
  split_and!.
  - by apply delete_task_found with t.
  - by apply delete_Permutation.
  - apply sublist_delete.
  - rewrite length_delete by eauto.
    apply lookup_lt_Some in Hl. lia.
Qed.

Lemma delete_task_removes_one_witness :
  exists db',
    delete_task "id-1" sample_db
    = (db', inr (mkMessage "Task deleted successfully"))
    /\ sample_db ≡ₚ sample_report :: db'.
Proof.
  destruct (delete_task_removes_one "id-1" sample_db sample_report eq_refl)
    as (db' & Hrun & Hperm & _).
  exists db'. by split.
Defined.

(** X7: on a collection with distinct ids, deleting the same id a second
    time answers 404 and changes nothing. *)
Theorem delete_task_twice id db db' m :
  unique_ids db ->
  delete_task id db = (db', inr m) ->
  delete_task id db' = (db', inl (mkHTTPException 404 "Task not found")).
Proof.
  intros Huniq Hrun.
  destruct (find_one [IdEq id] db) as [t|] eqn:Hf.
  - pose proof Hf as [i Hi]%find_one_Some.
    rewrite (delete_task_found _ _ _ _ Hi) in Hrun. injection Hrun as <- _.
    apply delete_task_missing. by apply unique_ids_delete_gone with t.
  - rewrite delete_task_missing in Hrun by done. discriminate.
Qed.

Lemma delete_task_twice_witness :
  delete_task "id-1" [sample_call]
  = ([sample_call], inl (mkHTTPException 404 "Task not found")).
Proof.
  apply (delete_task_twice "id-1" sample_db [sample_call]
           (mkMessage "Task deleted successfully") sample_db_unique).
  reflexivity.
Defined.

(** With two tasks under one id the second delete succeeds as well. *)
Lemma delete_task_twice_clash :
  (delete_task "id-1" (delete_task "id-1" sample_clash).1).2
  = inr (mkMessage "Task deleted successfully").
Proof. reflexivity. Qed.

(** ** Failures write nothing *)

Lemma update_subtask_error_unchanged now id sid c db db' e :
  update_subtask now id sid c db = (db', inl e) -> db' = db.
Proof.
  unfold update_subtask, hbind, await_read, await.
  destruct (find_one [IdEq id] db) as [t|]; simpl; [|by intros [= <- _]].
  unfold update_one.
  destruct (list_find _ db) as [[k t0]|] eqn:Hk; simpl;
    [|by intros [= <- _]].
  pose proof Hk as (Hl & Hm & _)%list_find_Some.
  destruct (decide _) as [Heq|Hne]; simpl.
  { rewrite Heq, list_insert_id by done. by intros [= <- _]. }
  set (t' := apply_update _ _ t0).
  assert (Hfound : is_Some (find_one [IdEq id] (<[k := t']> db))).
  { unfold find_one. apply fmap_is_Some.
    apply list_find_elem_of with t'.
    - apply list_elem_of_insert. by eapply lookup_lt_Some.
    - apply (proj2 (matches_IdEq id t')). unfold t'.
      rewrite apply_update_id. by apply matches_cons_IdEq in Hm. }
  destruct Hfound as [t'' ->]. simpl. discriminate.
Qed.

(** X8: a request that [get_task], [update_task], [delete_task] or
    [update_subtask] answers with an error leaves the collection exactly
    as it was. *)
Theorem errors_write_nothing db e :
  (forall id, (get_task id db).2 = inl e -> (get_task id db).1 = db)
  /\ (forall now id u,
        (update_task now id u db).2 = inl e ->
        (update_task now id u db).1 = db)
  /\ (forall id, (delete_task id db).2 = inl e -> (delete_task id db).1 = db)
  /\ (forall now id sid c,
        (update_subtask now id sid c db).2 = inl e ->
        (update_subtask now id sid c db).1 = db).
Proof.
  split_and!.
  - intros id. unfold get_task, hbind, await_read.
    by destruct (find_one _ db).
  - intros now id u Hrun.
    destruct (find_one [IdEq id] db) as [t|] eqn:Hf.
    + pose proof Hf as [i Hi]%find_one_Some.
      rewrite (update_task_found _ _ _ _ _ _ Hi) in Hrun |- *.
      by destruct (decide _).
    + by rewrite update_task_missing.
  - intros id Hrun.
    destruct (find_one [IdEq id] db) as [t|] eqn:Hf.
    + pose proof Hf as [i Hi]%find_one_Some.
      by rewrite (delete_task_found _ _ _ _ Hi) in Hrun.
    + by rewrite delete_task_missing.
  - intros now id sid c Hrun.
    destruct (update_subtask now id sid c db) as [db' r] eqn:E.
    simpl in *. subst r. by apply update_subtask_error_unchanged in E.
Qed.

Lemma errors_write_nothing_witness :
  (update_subtask 30000 "id-1" "s-zz" true sample_clash).1 = sample_clash.
Proof.
  apply (proj2 (proj2 (proj2
           (errors_write_nothing sample_clash
              (mkHTTPException 404 "Subtask not found"))))
           30000 "id-1" "s-zz" true).
  reflexivity.
Defined.

(** ** What no request changes *)

(** X9: [update_task] and [update_subtask] never change the [id] or the
    [created_at] of any stored task, whatever they answer. *)
Theorem id_and_created_at_immutable db :
  (forall now id u,
     task_id <$> (update_task now id u db).1 = task_id <$> db
     /\ task_created_at <$> (update_task now id u db).1
        = task_created_at <$> db)
  /\ (forall now id sid c,
     task_id <$> (update_subtask now id sid c db).1 = task_id <$> db
     /\ task_created_at <$> (update_subtask now id sid c db).1
        = task_created_at <$> db).
Proof.
  split; intros.
  - rewrite update_task_store. split; apply update_one_fmap; intros t.
    + apply apply_update_id.
    + apply apply_update_created_at.
  - rewrite update_subtask_store. split; apply update_one_fmap; intros t.
    + apply apply_update_id.
    + apply apply_update_created_at.
Qed.

Lemma serve_store req t1 t2 db :
  (serve req t1 t2 db).1 =
    match req with
    | CreateTask uuid ack i =>
        if ack then db ++ [bson_task (Task_of_TaskCreate uuid t1 t2 i)]
        else db
    | UpdateTask id u => (update_one [IdEq id] (update_dict u t1) db).1
    | DeleteTask id => (delete_one [IdEq id] db).1
    | UpdateSubtask id sid c =>
        (update_one [IdEq id; SubtaskIdEq sid]
           [SetSubtasksPosCompleted c; SetUpdatedAt t1] db).1
    | _ => db
    end.
Proof.
  destruct req as [uuid ack input|s p c|id|id u|id| |id sid c];
    unfold serve, respond; cbn [fst].
  - by destruct ack.
  - by rewrite get_tasks_run.
  - unfold get_task, hbind, await_read. by destruct (find_one _ db).
  - apply update_task_store.
  - apply delete_task_store.
  - done.
  - apply update_subtask_store.
Qed.

(** X10: serving any request keeps the ids of the collection pairwise
    distinct, provided a create request comes with an id that no stored
    task has. *)
Theorem serve_keeps_unique_ids req t1 t2 db :
  unique_ids db -> fresh_request req db ->
  unique_ids (serve req t1 t2 db).1.
Proof.
  intros Huniq Hfresh. rewrite serve_store.
  destruct req as [uuid ack input|s p c|id|id u|id| |id sid c]; try done.
  - destruct ack; [|done]. by apply unique_ids_insert_fresh.
  - by apply unique_ids_update_one.
  - by apply unique_ids_delete_one.
  - by apply unique_ids_update_one.
Qed.

Lemma serve_keeps_unique_ids_witness :
  unique_ids (serve (CreateTask "id-9" true late_input) 40000 41000 sample_db).1.
Proof.
  apply (serve_keeps_unique_ids (CreateTask "id-9" true late_input) 40000 41000
           sample_db sample_db_unique).
  intros t Ht. apply list_elem_of_In in Ht. simpl in Ht.
  destruct Ht as [<- | [<- | []]]; discriminate.
Defined.

(** X11: the number of stored tasks grows by one on an acknowledged
    create, shrinks by one on a delete that finds the id, and stays the
    same under every other request. *)
Theorem serve_length req t1 t2 db :
  length (serve req t1 t2 db).1 =
    match req with
    | CreateTask _ ack _ => if ack then S (length db) else length db
    | DeleteTask id =>
        match find_one [IdEq id] db with
        | Some _ => Nat.pred (length db)
        | None => length db
        end
    | _ => length db
    end.
Proof.
  rewrite serve_store.
  destruct req as [uuid ack input|s p c|id|id u|id| |id sid c]; try done.
  - destruct ack; [|done]. rewrite length_app. simpl. lia.
  - unfold update_one. destruct (list_find _ db) as [[i t]|]; simpl; [|done].
    apply length_insert.
  - unfold delete_one, find_one.
    destruct (list_find _ db) as [[i t]|] eqn:Hi; simpl; [|done].
    apply list_find_Some in Hi as (Hi & _).
    rewrite length_delete by eauto. lia.
  - unfold update_one. destruct (list_find _ db) as [[i t]|]; simpl; [|done].
    apply length_insert.
Qed.

(** ** get_dashboard_stats: how the counts relate *)

Lemma count_documents_cons q t db :
  count_documents q (t :: db)
  = (if matches q t then 1 else 0) + count_documents q db.
Proof.
  unfold count_documents. destruct (matches q t) eqn:Hm.
  - rewrite filter_cons_True by (apply Is_true_true; exact Hm).
    simpl length. lia.
  - rewrite filter_cons_False
      by (intros H; apply Is_true_true in H; congruence).
    lia.
Qed.

Lemma count_documents_nonneg q db : 0 <= count_documents q db.
Proof. unfold count_documents. lia. Qed.

Lemma count_documents_all db : count_documents [] db = Z.of_nat (length db).
Proof.
  induction db as [|t db IH]; [done |].
  rewrite count_documents_cons, IH. simpl. lia.
Qed.

(** X12: in the statistics of one collection, the three status counts
    add up to the total, the high-priority count is at most the total,
    and the overdue count is at most the number of tasks that are To Do or
    In Progress. *)
Theorem dashboard_counts_consistent now db :
  exists stats,
    get_dashboard_stats now db = (db, inr stats)
    /\ total_tasks stats = Z.of_nat (length db)
    /\ total_tasks stats
       = todo_count stats + in_progress_count stats + done_count stats
    /\ 0 <= high_priority_count stats <= total_tasks stats
    /\ 0 <= overdue_count stats <= todo_count stats + in_progress_count stats.
Proof.
  eexists. split; [reflexivity |]. cbn [total_tasks todo_count
    in_progress_count done_count high_priority_count overdue_count].
  split; [apply count_documents_all |].
  pose proof (count_documents_nonneg [PriorityEq HIGH] db).
  pose proof (count_documents_nonneg [DueDateLt now; StatusNe DONE] db).
  cut (count_documents [] db
       = count_documents [StatusEq TODO] db
         + count_documents [StatusEq IN_PROGRESS] db
         + count_documents [StatusEq DONE] db
       /\ count_documents [PriorityEq HIGH] db <= count_documents [] db
       /\ count_documents [DueDateLt now; StatusNe DONE] db
          <= count_documents [StatusEq TODO] db
             + count_documents [StatusEq IN_PROGRESS] db).
  { lia. }
  clear. induction db as [|t db (IH1 & IH2 & IH3)]; [done |].
  rewrite !count_documents_cons.
  unfold matches in *. cbn [forallb holds].
  destruct (task_status t), (task_priority t), (task_due_date t) as [d|];
    try destruct (bool_decide (d < bson_date now)); simpl; lia.
Qed.

(** ** get_tasks at the cap *)

(** X13: [get_tasks] returns as many tasks as match, up to 1000; the
    matching tasks it leaves out are none of them created later than any
    task it returns. *)
Theorem get_tasks_keeps_newest s p c db :
  exists l rest,
    get_tasks s p c db = (db, inr l)
    /\ length l = Nat.min 1000 (length (filter (applied_match s p c) db))
    /\ l ++ rest ≡ₚ filter (applied_match s p c) db
    /\ forall a b, a ∈ l -> b ∈ rest ->
         task_created_at b <= task_created_at a.
Proof.
  set (full := sort_created_at_desc (filter (applied_match s p c) db)).
  assert (Hperm : full ≡ₚ filter (applied_match s p c) db)
    by apply merge_sort_Permutation.
  exists (take 1000 full), (drop 1000 full). split_and!.
  - apply get_tasks_run.
  - by rewrite length_take, Hperm.
  - by rewrite take_drop.
  - intros a b Ha Hb.
    assert (Hs : StronglySorted created_at_desc
                   (take 1000 full ++ drop 1000 full)).
    { rewrite take_drop. apply (StronglySorted_merge_sort _). }
    exact (StronglySorted_app_1_elem_of _ _ _ _ _ Hs Ha Hb).
Qed.

(** X14: after a [create_task] whose write the store took, into a
    collection of fewer than 1000 tasks, [get_tasks] returns the created
    task, with its dates cut to the millisecond as the store keeps it,
    under every filter the task satisfies, the empty filter included. *)
Theorem create_task_then_get_tasks uuid t1 t2 input s p c db :
  (length db < 1000)%nat ->
  applied_match s p c (Task_of_TaskCreate uuid t1 t2 input) ->
  exists db' task l,
    create_task uuid t1 t2 true input db = (db', inr task)
    /\ get_tasks s p c db' = (db', inr l)
    /\ bson_task task ∈ l.
Proof.
  intros Hlen Hm. eexists _, _, _.
  split; [apply create_task_acked |]. split; [apply get_tasks_run |].
  rewrite get_tasks_all_below_cap.
  - apply list_elem_of_filter. split; [exact Hm |].
    apply elem_of_app. right. constructor.
  - etrans; [apply length_filter |]. rewrite length_app. simpl. lia.
Qed.

Lemma create_task_then_get_tasks_witness :
  exists db' task l,
    create_task "id-9" 40000 41000 true late_input sample_db = (db', inr task)
    /\ get_tasks (Some TODO) None (Some "") db' = (db', inr l)
    /\ bson_task task ∈ l.
Proof.
  apply (create_task_then_get_tasks "id-9" 40000 41000 late_input
           (Some TODO) None (Some "") sample_db).
  - simpl. lia.
  - unfold applied_match. simpl. by split_and!.
Defined.

(** ** update_subtask: when it succeeds *)

(** X15: on a collection with distinct ids, when the task exists, has a
    subtask with the id and its [updated_at] differs from the clock
    reading cut to the millisecond, [update_subtask] succeeds (also when the flag already has the
    given value) and marks the first subtask with that id. *)
Theorem update_subtask_succeeds now tid sid c db t j s :
  unique_ids db ->
  find_one [IdEq tid] db = Some t ->
  list_find (fun s => subtask_id s = sid) (task_subtasks t) = Some (j, s) ->
  task_updated_at t <> bson_date now ->
  exists db',
    update_subtask now tid sid c db = (db', inr (mark_subtask now c j t))
    /\ forall k s', (k < j)%nat -> task_subtasks t !! k = Some s' ->
         subtask_id s' <> sid.
Proof.
  intros Huniq [i Hi]%find_one_Some Hsub Hclk.
  rewrite (update_subtask_found _ _ _ _ _ _ _ Huniq Hi), Hsub.
  destruct (decide (mark_subtask now c j t = t)) as [Heq|Hne].
  - destruct Hclk. by rewrite <- Heq.
  - eexists. split; [done |].
    apply list_find_Some in Hsub as (_ & _ & Hleast). eauto.
Qed.

Lemma update_subtask_succeeds_witness :
  exists db',
    update_subtask 30000 "id-1" "s-a" false sample_db
    = (db', inr (mark_subtask 30000 false 0 sample_report)).
Proof.
  destruct (update_subtask_succeeds 30000 "id-1" "s-a" false sample_db
              sample_report 0 (mkSubtask "s-a" "a" false)
              sample_db_unique eq_refl eq_refl)
    as (db' & Hrun & _).
  - vm_compute. discriminate.
  - by exists db'.
Defined.

(** The same request at the reading the task already carries, with the
    flag it already has, is answered 404 although the subtask exists. *)
Lemma update_subtask_noop_not_found :
  update_subtask 10000 "id-1" "s-a" false sample_db
  = (sample_db, inl (mkHTTPException 404 "Subtask not found")).
Proof. reflexivity. Qed.

(** ** Status checks *)

(** X16: [create_status_check] never answers with an error, whether or
    not the store took the write, and returns the record it built; after
    a create whose write the store took, on a log of fewer than 1000
    records, [get_status_checks] returns the old records in their order
    followed by the created one with its timestamp cut to the
    millisecond, as the store keeps it. *)
Theorem status_check_round_trip uuid now input log :
  (forall ack, exists log',
     create_status_check uuid now ack input log
     = (log', inr (StatusCheck_of_create uuid now input)))
  /\ ((length log < 1000)%nat ->
      get_status_checks (create_status_check uuid now true input log).1
      = (log ++ [bson_status_check (StatusCheck_of_create uuid now input)],
         inr (log
              ++ [bson_status_check (StatusCheck_of_create uuid now input)]))).
Proof.
  split.
  - intros [|]; by eexists.
  - intros Hlen. unfold get_status_checks, create_status_check. simpl.
    rewrite take_ge; [done |]. rewrite length_app. simpl. lia.
Qed.

Lemma status_check_round_trip_witness :
  get_status_checks
    (create_status_check "sc-1" 7250 true (mkStatusCheckCreate "probe")
       (sample_log 2)).1
  = (sample_log 2 ++ [mkStatusCheck "sc-1" "probe" 7000],
     inr (sample_log 2 ++ [mkStatusCheck "sc-1" "probe" 7000])).
Proof.
  apply (proj2 (status_check_round_trip "sc-1" 7250 (mkStatusCheckCreate "probe")
                  (sample_log 2))).
  simpl. lia.
Defined.

(** X17: [get_status_checks] returns the first [min 1000 n] records of a
    log of [n] records; once the log holds 1000 records, a created status
    check does not show in its answer. *)
Theorem status_check_cap uuid now ack input log :
  (exists l, get_status_checks log = (log, inr l)
             /\ l `prefix_of` log
             /\ length l = Nat.min 1000 (length log))
  /\ ((1000 <= length log)%nat ->
      (get_status_checks (create_status_check uuid now ack input log).1).2
      = (get_status_checks log).2).
Proof.
  split.
  - eexists. split; [reflexivity |]. split.
    + exists (drop 1000 log). by rewrite take_drop.
    + apply length_take.
  - intros Hlen. unfold get_status_checks, create_status_check.
    destruct ack; simpl; [|done]. by rewrite take_app_le.
Qed.

Lemma status_check_cap_witness :
  (get_status_checks
     (create_status_check "sc-1" 7000 true (mkStatusCheckCreate "probe")
        (sample_log 1000)).1).2
  = (get_status_checks (sample_log 1000)).2.
Proof.
  apply (proj2 (status_check_cap "sc-1" 7000 true (mkStatusCheckCreate "probe")
                  (sample_log 1000))).
  unfold sample_log. rewrite length_replicate. lia.
Defined.

(** ** More on the statistics *)

Lemma length_filter_impl {A} (P Q : A -> Prop)
    `{!forall x, Decision (P x)} `{!forall x, Decision (Q x)} (l : list A) :
  (forall x, P x -> Q x) ->
  (length (filter P l) <= length (filter Q l))%nat.
Proof.
  intros Himpl. induction l as [|x l IH]; [done |].
  rewrite !filter_cons.
  destruct (decide (P x)) as [HP|HP]; destruct (decide (Q x)) as [HQ|HQ];
    simpl; try lia.
  destruct HQ. by apply Himpl.
Qed.

Lemma overdue_later now now' t : now <= now' -> overdue now t -> overdue now' t.
Proof.
  unfold overdue. intros Hle [Hd Hs]. split; [|done].
  destruct (task_due_date t); simpl in *; [lia | done].
Qed.

(** X18: on an unchanged collection the overdue count never goes down as
    the clock advances. *)
Theorem overdue_count_monotone now now' db :
  now <= now' ->
  exists s s',
    get_dashboard_stats now db = (db, inr s)
    /\ get_dashboard_stats now' db = (db, inr s')
    /\ overdue_count s <= overdue_count s'.
Proof.
  intros Hle.
  destruct (get_dashboard_stats_run now db) as (s & Hs & Hc).
  destruct (get_dashboard_stats_run now' db) as (s' & Hs' & Hc').
  exists s, s'. split_and!; [done | done |].
  rewrite Hc, Hc'. unfold overdue_tasks. apply inj_le, length_filter_impl.
  intros t. apply overdue_later. by apply bson_date_mono.
Qed.

Lemma overdue_count_monotone_witness :
  exists s s',
    get_dashboard_stats 3000 sample_db = (sample_db, inr s)
    /\ get_dashboard_stats 50000 sample_db = (sample_db, inr s')
    /\ overdue_count s <= overdue_count s'.
Proof.
  apply (overdue_count_monotone 3000 50000 sample_db). lia.
Defined.

Lemma filter_dict_status s : filter_dict (Some s) None None = [StatusEq s].
Proof. by destruct s. Qed.

Lemma filter_dict_priority p : filter_dict None (Some p) None = [PriorityEq p].
Proof. by destruct p. Qed.

(** X19: while the collection holds at most 1000 tasks, the list filtered
    by a status has as many tasks as the dashboard counts for that status,
    the list filtered by priority High as many as the high-priority count,
    and the unfiltered list as many as the total. *)
Theorem dashboard_agrees_with_get_tasks now db :
  (length db <= 1000)%nat ->
  exists stats l_all l_todo l_prog l_done l_high,
    get_dashboard_stats now db = (db, inr stats)
    /\ get_tasks None None None db = (db, inr l_all)
    /\ get_tasks (Some TODO) None None db = (db, inr l_todo)
    /\ get_tasks (Some IN_PROGRESS) None None db = (db, inr l_prog)
    /\ get_tasks (Some DONE) None None db = (db, inr l_done)
    /\ get_tasks None (Some HIGH) None db = (db, inr l_high)
    /\ total_tasks stats = Z.of_nat (length l_all)
    /\ todo_count stats = Z.of_nat (length l_todo)
    /\ in_progress_count stats = Z.of_nat (length l_prog)
    /\ done_count stats = Z.of_nat (length l_done)
    /\ high_priority_count stats = Z.of_nat (length l_high).
Proof.
  intros Hlen.
  assert (Hcount : forall s p,
    Z.of_nat (length (take 1000 (sort_created_at_desc
                                   (filter (applied_match s p None) db))))
    = count_documents (filter_dict s p None) db).
  { intros s p. rewrite get_tasks_all_below_cap
      by (etrans; [apply length_filter | done]).
    unfold count_documents. by rewrite <- find_filter_dict. }
  eexists _, _, _, _, _, _.
  split; [reflexivity |].
  do 5 (split; [apply get_tasks_run |]).
  cbn [total_tasks todo_count in_progress_count done_count
         high_priority_count].
  rewrite !Hcount. by rewrite !filter_dict_status, filter_dict_priority.
Qed.

Lemma dashboard_agrees_with_get_tasks_witness :
  exists stats l_done,
    get_dashboard_stats 50000 sample_db = (sample_db, inr stats)
    /\ get_tasks (Some DONE) None None sample_db = (sample_db, inr l_done)
    /\ done_count stats = Z.of_nat (length l_done).
Proof.
  destruct (dashboard_agrees_with_get_tasks 50000 sample_db)
    as (stats & _ & _ & _ & l_done & _ & Hs & _ & _ & _ & Hd & _ & _ & _
        & _ & Hc & _).
  - simpl. lia.
  - exists stats, l_done. by split_and!.
Defined.

(** ** Status changes and subtask toggles *)

(** X20: [update_task] accepts every change of status: on an existing
    task an update that supplies only a status succeeds for every target
    status other than the current one (Done back to To Do included),
    whatever the clock reads, and for the current one as soon as the clock
    reading cut to the millisecond differs from the stored [updated_at];
    it changes the status and [updated_at] only. *)
Theorem any_status_change now id db t s' :
  find_one [IdEq id] db = Some t ->
  task_status t <> s' \/ task_updated_at t <> bson_date now ->
  exists db',
    update_task now id (status_update s') db
    = (db', inr (with_updated_at (bson_date now) (with_status s' t))).
Proof.
  intros [i Hi]%find_one_Some Hchange.
  rewrite (update_task_found now id (status_update s') _ _ _ Hi).
  destruct (decide _) as [Heq|_]; [|by eexists].
  destruct Hchange as [Hst|Hclk].
  - destruct Hst. by rewrite <- Heq.
  - destruct Hclk. by rewrite <- Heq.
Qed.

Lemma any_status_change_witness :
  exists db',
    update_task 20000 "id-2" (status_update TODO) sample_db
    = (db', inr (with_updated_at 20000 (with_status TODO sample_call))).
Proof.
  apply (any_status_change 20000 "id-2" sample_db sample_call TODO eq_refl).
  left. discriminate.
Defined.

(** Marking with a flag the subtask does not have changes the task. *)
Lemma mark_subtask_changes now c j t s :
  task_subtasks t !! j = Some s -> subtask_completed s <> c ->
  mark_subtask now c j t <> t.
Proof.
  intros Hj Hflag Heq. destruct Hflag.
  assert (H : task_subtasks (mark_subtask now c j t) !! j
              = task_subtasks t !! j) by by rewrite Heq.
  simpl in H. rewrite list_lookup_alter_eq, Hj in H. simpl in H.
  by injection H as <-.
Qed.

Lemma list_find_subtask_alter sid c (l : list Subtask) j s :
  list_find (fun s => subtask_id s = sid) l = Some (j, s) ->
  list_find (fun s => subtask_id s = sid) (alter (set_completed c) j l)
  = Some (j, set_completed c s).
Proof.
  intros (Hj & Hs & Hleast)%list_find_Some. apply list_find_Some. split_and!.
  - by rewrite list_lookup_alter_eq, Hj.
  - done.
  - intros k y Hk Hlt. rewrite list_lookup_alter_ne in Hk by lia. eauto.
Qed.

Lemma alter_set_completed_back c (l : list Subtask) j s :
  l !! j = Some s ->
  alter (set_completed (subtask_completed s)) j (alter (set_completed c) j l)
  = l.
Proof.
  intros Hj. apply list_eq. intros k.
  destruct (decide (k = j)) as [->|Hne].
  - rewrite !list_lookup_alter_eq, Hj. simpl. by destruct s.
  - by rewrite !list_lookup_alter_ne.
Qed.

(** X21: on a collection with distinct ids, setting the flag of a
    subtask to the value it does not have and then setting it back
    succeeds both times, whatever the clock reads, and restores the task
    except for [updated_at], which is the second reading as the store
    keeps it. *)
Theorem update_subtask_toggle_back now now' tid sid c db t j s :
  unique_ids db ->
  find_one [IdEq tid] db = Some t ->
  list_find (fun s => subtask_id s = sid) (task_subtasks t) = Some (j, s) ->
  subtask_completed s <> c ->
  exists db1 t1 db2,
    update_subtask now tid sid c db = (db1, inr t1)
    /\ update_subtask now' tid sid (subtask_completed s) db1
       = (db2, inr (with_updated_at (bson_date now') t)).
Proof.
  intros Huniq [i Hi]%find_one_Some Hsub Hflag.
  pose proof Hsub as (Hj & _ & _)%list_find_Some.
  set (t1 := mark_subtask now c j t).
  assert (Hne1 : t1 <> t) by (by apply mark_subtask_changes with s).
  assert (Hrun1 : update_subtask now tid sid c db = (<[i := t1]> db, inr t1)).
  { rewrite (update_subtask_found _ _ _ _ _ _ _ Huniq Hi), Hsub.
    fold t1. by destruct (decide (t1 = t)). }
  exists (<[i := t1]> db), t1. eexists. split; [exact Hrun1 |].
  assert (Huniq1 : unique_ids (<[i := t1]> db)).
  { unfold unique_ids in *. apply list_find_Some in Hi as (Hi & _).
    rewrite list_fmap_insert, list_insert_id; [done |].
    by rewrite list_lookup_fmap, Hi. }
  assert (Hi1 : list_find (fun t => matches [IdEq tid] t) (<[i := t1]> db)
                = Some (i, t1)).
  { apply list_find_insert_same with t; [done |].
    apply list_find_Some in Hi as (_ & Hm & _).
    apply (proj2 (matches_IdEq tid _)). exact (proj1 (matches_IdEq tid t) Hm). }
  rewrite (update_subtask_found _ _ _ _ _ _ _ Huniq1 Hi1).
  assert (Hsub1 : list_find (fun s => subtask_id s = sid) (task_subtasks t1)
                  = Some (j, set_completed c s))
    by (by apply list_find_subtask_alter).
  rewrite Hsub1.
  assert (Hne2 : mark_subtask now' (subtask_completed s) j t1 <> t1).
  { apply mark_subtask_changes with (set_completed c s).
    - by apply list_find_Some in Hsub1 as (? & _).
    - simpl. congruence. }
  assert (Hback : mark_subtask now' (subtask_completed s) j t1
                  = with_updated_at (bson_date now') t).
  { pose proof (alter_set_completed_back c _ j s Hj) as Halter.
    unfold t1, mark_subtask, with_updated_at, with_subtasks. simpl.
    by rewrite Halter. }
  destruct (decide _) as [Heq|_]; [done |].
  by rewrite Hback, list_insert_insert_eq.
Qed.

Lemma update_subtask_toggle_back_witness :
  exists db1 t1 db2,
    update_subtask 10000 "id-1" "s-a" true sample_db = (db1, inr t1)
    /\ update_subtask 10000 "id-1" "s-a" false db1
       = (db2, inr (with_updated_at 10000 sample_report)).
Proof.
  apply (update_subtask_toggle_back 10000 10000 "id-1" "s-a" true sample_db
           sample_report 0 (mkSubtask "s-a" "a" false)
           sample_db_unique eq_refl eq_refl).
  discriminate.
Defined.
